(** * twrpdtgen: the build.prop reader

    A shallow embedding of [twrpdtgen/info_extractors/buildprop.py] and the
    properties of its [BuildPropReader] class.

    The file content is a [string].  A character of the model is a code
    point below 256 (ASCII and the Latin-1 supplement); a file whose text
    holds a code point beyond that is outside the model.  The regular
    expressions, [startswith] and the f-string treat every character other
    than the line feed alike; [str.lower] is modelled exactly on these code
    points: it acts character by character, maps A-Z and the Latin-1
    capitals to their small letters and leaves every other one as it is. *)

From Stdlib Require Import String Ascii List Arith Bool Lia.
Import ListNotations.
Open Scope string_scope.

Set Implicit Arguments.

(** ** Python strings *)

Module PyStr.

Definition newline : ascii := "010"%char.

Definition nl : string := String newline EmptyString.

(** [s[:n]] *)
Fixpoint take (n : nat) (s : string) : string :=
  match n, s with
  | S n', String c s' => String c (take n' s')
  | _, _ => EmptyString
  end.

(** [s[n:]] *)
Fixpoint drop (n : nat) (s : string) : string :=
  match n, s with
  | S n', String _ s' => drop n' s'
  | _, _ => s
  end.

(** [s.startswith(p)] *)
Fixpoint startswith (s p : string) {struct p} : bool :=
  match p with
  | EmptyString => true
  | String a p' =>
      match s with
      | EmptyString => false
      | String b s' => Ascii.eqb a b && startswith s' p'
      end
  end.

(** The code points below 256 that [str.lower] changes: the capitals A-Z
    (65 to 90) and the Latin-1 capitals (192 to 222, the multiplication
    sign 215 left out). *)
Definition is_upper (c : ascii) : bool :=
  let n := nat_of_ascii c in
  (Nat.leb 65 n && Nat.leb n 90) ||
  (Nat.leb 192 n && Nat.leb n 222 && negb (Nat.eqb n 215)).

(** The small letter of each of them is 32 code points further. *)
Definition lower_char (c : ascii) : ascii :=
  if is_upper c then ascii_of_nat (nat_of_ascii c + 32) else c.

(** [s.lower()] *)
Fixpoint lower (s : string) : string :=
  match s with
  | EmptyString => EmptyString
  | String c s' => String (lower_char c) (lower s')
  end.

(** [sub in s] *)
Fixpoint contains (s sub : string) : bool :=
  startswith s sub ||
  match s with
  | EmptyString => false
  | String _ s' => contains s' sub
  end.

(** [s.split("\n")]: the lines of [s], the line feeds removed. *)
Fixpoint lines (s : string) : list string :=
  match s with
  | EmptyString => [EmptyString]
  | String c s' =>
      if Ascii.eqb c newline then EmptyString :: lines s'
      else match lines s' with
           | l :: ls => String c l :: ls
           | [] => [String c EmptyString]
           end
  end.

(** The text from the start of [s] to the end of its first line. *)
Fixpoint line_rest (s : string) : string :=
  match s with
  | EmptyString => EmptyString
  | String c s' =>
      if Ascii.eqb c newline then EmptyString else String c (line_rest s')
  end.

(** [s] is at the end of a line: nothing is left, or a line feed is next. *)
Definition at_eol (s : string) : bool :=
  match s with
  | EmptyString => true
  | String c _ => Ascii.eqb c newline
  end.

(** No line feed in [s]. *)
Fixpoint one_line (s : string) : bool :=
  match s with
  | EmptyString => true
  | String c s' => negb (Ascii.eqb c newline) && one_line s'
  end.

End PyStr.
Import PyStr.

(** ** The part of Python's [re] the module uses

    A backtracking matcher in continuation-passing style, as [sre] works:
    alternatives are tried from left to right, a starred atom takes as many
    characters as it can and gives them back one by one, and [search] tries
    the start positions from left to right.  The flag [re.MULTILINE] is on in
    all seven patterns, and [$] is the only construct it changes here. *)

Module Re.

(** One character of a pattern: a literal, or the dot, which takes any
    character but the line feed ([re.DOTALL] is off). *)
Inductive atom : Type :=
| Lit (c : ascii)
| AnyChar.

Definition atom_ok (a : atom) (c : ascii) : bool :=
  match a with
  | Lit d => Ascii.eqb d c
  | AnyChar => negb (Ascii.eqb c newline)
  end.

Inductive regex : Type :=
| Eps
| One (a : atom)
| Cat (r1 r2 : regex)
| Alt (r1 r2 : regex)       (* r1|r2, r1 first *)
| Star (a : atom)           (* a*, greedy *)
| Group1 (r : regex)        (* (r), the capturing group number 1 *)
| Eol.                      (* $ under re.MULTILINE *)

(** A successful attempt: what group 1 holds and the text left after the
    match. *)
Definition attempt : Type := (option string * string)%type.

Fixpoint star_bt (a : atom) (s : string) (k : string -> option attempt)
  : option attempt :=
  match s with
  | String c s' =>
      if atom_ok a c then
        match star_bt a s' k with
        | Some m => Some m
        | None => k s
        end
      else k s
  | EmptyString => k s
  end.

Fixpoint bt (r : regex) (g : option string) (s : string)
    (k : option string -> string -> option attempt) : option attempt :=
  match r with
  | Eps => k g s
  | One a =>
      match s with
      | String c s' => if atom_ok a c then k g s' else None
      | EmptyString => None
      end
  | Cat r1 r2 => bt r1 g s (fun g' s' => bt r2 g' s' k)
  | Alt r1 r2 =>
      match bt r1 g s k with
      | Some m => Some m
      | None => bt r2 g s k
      end
  | Star a => star_bt a s (k g)
  | Group1 r1 =>
      bt r1 g s
        (fun _ s' =>
           k (Some (take (String.length s - String.length s') s)) s')
  | Eol => if at_eol s then k g s else None
  end.

(** [re.Match]: [start()], [end()] and [group(1)], which is [None] when the
    group took no part in the match. *)
Record Match : Type := mkMatch {
  m_start : nat;
  m_end : nat;
  m_group1 : option string
}.

Definition match_here (r : regex) (s : string) : option attempt :=
  bt r None s (fun g s' => Some (g, s')).

(** [search] from offset [pos] of the whole text, [s] being the text from
    there on.  No pattern here looks behind the current position (there is
    no [^] and no [\b]), so the text before [pos] is not needed. *)
Fixpoint search_from (r : regex) (s : string) (pos : nat) : option Match :=
  match match_here r s with
  | Some (g, s') =>
      Some (mkMatch pos (pos + (String.length s - String.length s')) g)
  | None =>
      match s with
      | EmptyString => None
      | String _ s' => search_from r s' (S pos)
      end
  end.

(** [regex.search(s)] *)
Definition search (r : regex) (s : string) : option Match :=
  search_from r s 0.

(** [match.group(1)].  Group 1 of each pattern of this module takes part in
    every match (lemma [search_group1] below), so the [None] of Python never
    arises and the default is never used. *)
Definition group1 (m : Match) : string :=
  match m_group1 m with
  | Some v => v
  | None => EmptyString
  end.

(** The truth value of what [search] returns: a match object is true,
    [None] is false.  It is what [if match:] and [bool(...)] test. *)
Definition truthy (m : option Match) : bool :=
  match m with
  | Some _ => true
  | None => false
  end.

(** A key as the patterns write it: a dot is the regex dot, every other
    character of the keys (letters, [_], [=]) is a literal. *)
Fixpoint key (k : string) : regex :=
  match k with
  | EmptyString => Eps
  | String c k' =>
      Cat (One (if Ascii.eqb c "."%char then AnyChar else Lit c)) (key k')
  end.

(** [k1|k2|...|kn] *)
Fixpoint alternation (ks : list string) : regex :=
  match ks with
  | [] => Eps
  | [k] => key k
  | k :: ks' => Alt (key k) (alternation ks')
  end.

(** [re.compile] of a pattern of the module's one shape, under
    [re.MULTILINE]: a group that does not capture holding the alternation
    of the keys, then group 1 holding a starred dot, then [$]. *)
Definition compile (ks : list string) : regex :=
  Cat (alternation ks) (Cat (Group1 (Star AnyChar)) Eol).

End Re.
Import Re.

(** ** The module's patterns *)

Definition CODENAME_KEYS : list string :=
  ["ro.product.device="; "ro.system.device=";
   "ro.vendor.device="; "ro.product.system.device="].
Definition MANUFACTURER_KEYS : list string :=
  ["ro.product.manufacturer="; "ro.product.system.manufacturer=";
   "ro.product.vendor.manufacturer="].
Definition PLATFORM_KEYS : list string :=
  ["ro.board.platform="; "ro.hardware.keystore="].
Definition BRAND_KEYS : list string :=
  ["ro.product.brand="; "ro.product.system.brand=";
   "ro.product.vendor.brand="].
Definition MODEL_KEYS : list string :=
  ["ro.product.model="; "ro.product.system.model=";
   "ro.product.vendor.model="].
Definition ARCH_KEYS : list string :=
  ["ro.product.cpu.abi="; "ro.product.cpu.abilist="].
Definition IS_AB_KEYS : list string :=
  ["ro.build.ab_update=true"].

Definition DEVICE_CODENAME_RE : regex := compile CODENAME_KEYS.
Definition DEVICE_MANUFACTURER_RE : regex := compile MANUFACTURER_KEYS.
Definition DEVICE_PLATFORM_RE : regex := compile PLATFORM_KEYS.
Definition DEVICE_BRAND_RE : regex := compile BRAND_KEYS.
Definition DEVICE_MODEL_RE : regex := compile MODEL_KEYS.
Definition DEVICE_ARCH_RE : regex := compile ARCH_KEYS.
Definition DEVICE_IS_AB_RE : regex := compile IS_AB_KEYS.

(** ** Exceptions *)

(** [AssertionError] is the one exception the module raises itself.  The
    others come from [pathlib] and are passed on: [OSError] and its
    subclasses (no such file, no permission, no working directory),
    [UnicodeDecodeError] from the codec, and any other exception, named by
    its class. *)
Inductive exn : Type :=
| AssertionError (msg : string)
| OSError (path : string)
| UnicodeDecodeError (path : string)
| OtherError (cls : string).

Inductive result (A : Type) : Type :=
| Ok (a : A)
| Raise (e : exn).
Arguments Ok {A} a.
Arguments Raise {A} e.

Definition bind {A B : Type} (m : result A) (f : A -> result B) : result B :=
  match m with
  | Ok a => f a
  | Raise e => Raise e
  end.

Notation "x <- m ;; f" := (bind m (fun x => f))
  (at level 61, m at next level, right associativity).

(** ** BuildPropReader *)

Record BuildPropReader : Type := mkReader {
  _filename : string;
  _content : string;
  codename : string;
  manufacturer : string;
  platform : string;
  brand : string;
  model : string;
  arch : string;
  device_is_ab : bool;
  device_has_64bit_arch : bool
}.

Definition _error {A : Type} (prop : string) : result A :=
  Raise (AssertionError
           ("Device " ++ prop ++ " could not be found in build.prop")).

Definition get_prop (content : string) (regex : regex) (error : string)
  : result string :=
  match search regex content with
  | Some m => Ok (group1 m)
  | None => _error error
  end.

Definition parse_arch (arch : string) : string :=
  if startswith arch "arm64" then "arm64"
  else if startswith arch "armeabi" then "arm"
  else if startswith arch "x86" then "x86"
  else if startswith arch "x86_64" then "x86_64"
  else if startswith arch "mips" then "mips"
  else "unknown".

(** [x in ("arm64", "x86_64")] *)
Definition is_64bit (x : string) : bool :=
  String.eqb x "arm64" || String.eqb x "x86_64".

(** The body of [__init__] once the file is read: the eight assignments in
    the order of the source; the first property that is not found raises. *)
Definition parse_props (filename content : string) : result BuildPropReader :=
  codename <- get_prop content DEVICE_CODENAME_RE "codename" ;;
  manufacturer <- get_prop content DEVICE_MANUFACTURER_RE "manufacturer" ;;
  let manufacturer := lower manufacturer in
  platform <- get_prop content DEVICE_PLATFORM_RE "platform" ;;
  brand <- get_prop content DEVICE_BRAND_RE "brand" ;;
  model <- get_prop content DEVICE_MODEL_RE "model" ;;
  arch_raw <- get_prop content DEVICE_ARCH_RE "arch" ;;
  let arch := parse_arch arch_raw in
  let device_is_ab := truthy (search DEVICE_IS_AB_RE content) in
  let device_has_64bit_arch := is_64bit arch in
  Ok (mkReader filename content codename manufacturer platform brand model
        arch device_is_ab device_has_64bit_arch).

(** What [__init__] asks of its surroundings: [file.absolute()], which
    asks for the working directory and raises when there is none, and
    [read_text()] on the absolute path, which returns the decoded text of
    the file or raises. *)
Record Env : Type := mkEnv {
  absolute : string -> result string;
  read_text : string -> result string
}.

Definition __init__ (env : Env) (file : string) : result BuildPropReader :=
  filename <- absolute env file ;;
  content <- read_text env filename ;;
  parse_props filename content.

(** ** Reading the patterns

    Functions that say, without the matcher, where a pattern of the module's
    shape matches and what it captures; the lemmas below relate them to
    [search]. *)

(** What follows the first line of [s]: empty, or from its line feed on. *)
Definition line_tail (s : string) : string :=
  drop (String.length (line_rest s)) s.

(** The key pattern [k] matches at the start of [s]: character for character,
    a dot of [k] standing for any character but the line feed. *)
Fixpoint key_match (k s : string) : bool :=
  match k with
  | EmptyString => true
  | String c k' =>
      match s with
      | EmptyString => false
      | String d s' =>
          (if Ascii.eqb c "."%char then negb (Ascii.eqb d newline)
           else Ascii.eqb c d) && key_match k' s'
      end
  end.

(** The first alternative, from the left, that matches at the start of [s]. *)
Fixpoint first_key (ks : list string) (s : string) : option string :=
  match ks with
  | [] => None
  | k :: ks' => if key_match k s then Some k else first_key ks' s
  end.

(** The leftmost offset of [s] at which an alternative matches, with that
    alternative. *)
Fixpoint find_key (ks : list string) (s : string) : option (nat * string) :=
  match first_key ks s with
  | Some k => Some (0, k)
  | None =>
      match s with
      | EmptyString => None
      | String _ s' =>
          match find_key ks s' with
          | Some (i, k) => Some (S i, k)
          | None => None
          end
      end
  end.

(** No alternative of [ks] matches at an offset of [s] before [n]. *)
Definition no_key_before (ks : list string) (s : string) (n : nat) : Prop :=
  forall i, i < n -> first_key ks (drop i s) = None.

(** The pattern [r] matches at no offset of [s] before [n]. *)
Definition no_match_before (r : regex) (s : string) (n : nat) : Prop :=
  forall i, i < n -> match_here r (drop i s) = None.

(** The same, computed with [search]: the match it returns, if any, starts
    at [n] or later. *)
Definition no_match_beforeb (r : regex) (s : string) (n : nat) : bool :=
  match search r s with
  | Some m => Nat.leb n (m_start m)
  | None => true
  end.

(** [v] is what the pattern compiled from [ks] captures in [content]: the
    leftmost place where the pattern matches holds a text [t] that a key of
    [ks] matches, then [v], and [v] runs to the end of the line. *)
Definition captured_at (ks : list string) (content v : string) : Prop :=
  exists pre t rest k,
    content = pre ++ t ++ v ++ rest /\
    In k ks /\ key_match k t = true /\
    String.length t = String.length k /\
    match_here (compile ks) (t ++ v ++ rest) = Some (Some v, rest) /\
    one_line v = true /\ at_eol rest = true /\
    no_match_before (compile ks) content (String.length pre).

(** The key pattern [k] cannot match a text that starts as the key [k']
    does: at some position [k] has a literal that [k'] does not have. *)
Fixpoint clash (k k' : string) : bool :=
  match k, k' with
  | String c k1, String d k2 =>
      (negb (Ascii.eqb c "."%char) && negb (Ascii.eqb c d)) || clash k1 k2
  | _, _ => false
  end.

(** The keys of one pattern: none holds a line feed, and none matches where
    a later one stands. *)
Fixpoint keys_ok (ks : list string) : bool :=
  match ks with
  | [] => true
  | k :: ks' => one_line k && forallb (clash k) ks' && keys_ok ks'
  end.

(** The key patterns [k] and [k'] cannot match at the same place: at some
    position both have a literal, and the two literals differ. *)
Fixpoint pclash (k k' : string) : bool :=
  match k, k' with
  | String c k1, String d k2 =>
      (negb (Ascii.eqb c "."%char) && negb (Ascii.eqb d "."%char) &&
       negb (Ascii.eqb c d)) || pclash k1 k2
  | _, _ => false
  end.

(** No two keys of [ks] can match at the same place. *)
Fixpoint keys_excl (ks : list string) : bool :=
  match ks with
  | [] => true
  | k :: ks' =>
      forallb (fun k' => pclash k k' && pclash k' k) ks' && keys_excl ks'
  end.

(** [p] and [q] agree as far as both go: some string starts with both. *)
Fixpoint compat (p q : string) : bool :=
  match p, q with
  | String a p', String b q' => Ascii.eqb a b && compat p' q'
  | _, _ => true
  end.

(** [s] holds a capital, a character that [str.lower] changes. *)
Fixpoint has_upper (s : string) : bool :=
  match s with
  | EmptyString => false
  | String c s' => is_upper c || has_upper s'
  end.

(** ** The required properties

    [__init__] calls [get_prop] six times; [prop] names the six calls, in the
    order of the source, with the pattern and the name each one passes. *)

Inductive prop : Type :=
| Codename | Manufacturer | Platform | Brand | Model | Arch.

Definition prop_keys (p : prop) : list string :=
  match p with
  | Codename => CODENAME_KEYS
  | Manufacturer => MANUFACTURER_KEYS
  | Platform => PLATFORM_KEYS
  | Brand => BRAND_KEYS
  | Model => MODEL_KEYS
  | Arch => ARCH_KEYS
  end.

Definition prop_re (p : prop) : regex :=
  match p with
  | Codename => DEVICE_CODENAME_RE
  | Manufacturer => DEVICE_MANUFACTURER_RE
  | Platform => DEVICE_PLATFORM_RE
  | Brand => DEVICE_BRAND_RE
  | Model => DEVICE_MODEL_RE
  | Arch => DEVICE_ARCH_RE
  end.

Definition prop_name (p : prop) : string :=
  match p with
  | Codename => "codename"
  | Manufacturer => "manufacturer"
  | Platform => "platform"
  | Brand => "brand"
  | Model => "model"
  | Arch => "arch"
  end.

(** The place of the call in [__init__]. *)
Definition prop_index (p : prop) : nat :=
  match p with
  | Codename => 0
  | Manufacturer => 1
  | Platform => 2
  | Brand => 3
  | Model => 4
  | Arch => 5
  end.

(** The attribute the call assigns. *)
Definition field (p : prop) (r : BuildPropReader) : string :=
  match p with
  | Codename => codename r
  | Manufacturer => manufacturer r
  | Platform => platform r
  | Brand => brand r
  | Model => model r
  | Arch => arch r
  end.

(** What [__init__] does to the captured text before it assigns it. *)
Definition from_capture (p : prop) (v : string) : string :=
  match p with
  | Manufacturer => lower v
  | Arch => parse_arch v
  | _ => v
  end.

(** The pattern of [p] matches somewhere in the content. *)
Definition found (p : prop) (content : string) : bool :=
  truthy (search (prop_re p) content).

(** The exception [_error] raises for [p]. *)
Definition missing_error (p : prop) : exn :=
  AssertionError
    ("Device " ++ prop_name p ++ " could not be found in build.prop").

(** The eight public attributes of two readers agree. *)
Definition same_fields (a b : BuildPropReader) : Prop :=
  codename a = codename b /\
  manufacturer a = manufacturer b /\
  platform a = platform b /\
  brand a = brand b /\
  model a = model b /\
  arch a = arch b /\
  device_is_ab a = device_is_ab b /\
  device_has_64bit_arch a = device_has_64bit_arch b.

(** Two runs end alike: the same exception, or readers with the same
    public attributes. *)
Definition same_outcome (x y : result BuildPropReader) : Prop :=
  match x, y with
  | Ok a, Ok b => same_fields a b
  | Raise e1, Raise e2 => e1 = e2
  | _, _ => False
  end.

(** The offset [off] of [content] is where a line starts. *)
Definition at_line_start (content : string) (off : nat) : bool :=
  match off with
  | 0 => true
  | S i =>
      match drop i content with
      | String c _ => Ascii.eqb c newline
      | EmptyString => false
      end
  end.

(** ** Sample inputs *)

Definition sample : string :=
  "ro.product.device=walleye" ++ nl ++
  "ro.product.manufacturer=Google" ++ nl ++
  "ro.board.platform=msm8998" ++ nl ++
  "ro.product.brand=google" ++ nl ++
  "ro.product.model=Pixel 2" ++ nl ++
  "ro.product.cpu.abi=arm64-v8a" ++ nl ++
  "ro.build.ab_update=true" ++ nl.


(** The sample with a MIPS device. *)
Definition sample_mips : string :=
  "ro.product.device=ci20" ++ nl ++
  "ro.product.manufacturer=Imagination" ++ nl ++
  "ro.board.platform=xb4780" ++ nl ++
  "ro.product.brand=Ingenic" ++ nl ++
  "ro.product.model=CI20" ++ nl ++
  "ro.product.cpu.abi=mips" ++ nl.

(** The sample without its model line. *)
Definition sample_no_model : string :=
  "ro.product.device=walleye" ++ nl ++
  "ro.product.manufacturer=Google" ++ nl ++
  "ro.board.platform=msm8998" ++ nl ++
  "ro.product.brand=google" ++ nl ++
  "ro.product.cpu.abi=arm64-v8a" ++ nl.

(** A file system with the sample under two names. *)
Definition home_env : Env :=
  mkEnv
    (fun file => Ok (if startswith file "/" then file
                     else "/home/a/" ++ file))
    (fun path => if String.eqb path "/home/a/build.prop" then Ok sample
                 else Raise (OSError path)).
Definition tmp_env : Env :=
  mkEnv
    (fun file => Ok (if startswith file "/" then file else "/" ++ file))
    (fun path => if String.eqb path "/tmp/system/build.prop" then Ok sample
                 else Raise (OSError path)).

(** The sample after a line that holds a key in a comment. *)
Definition sample_commented : string :=
  "#ro.product.device=taimen" ++ nl ++ sample.

(** Two keys of the codename, the later alternative on the earlier line. *)
Definition two_codenames : string :=
  "# begin build properties" ++ nl ++
  "ro.system.device=first" ++ nl ++
  "ro.product.device=second" ++ nl.


(** The sample with the A/B line written with other separators. *)
Definition sample_other_marker : string :=
  "ro.product.device=walleye" ++ nl ++
  "ro.product.manufacturer=Google" ++ nl ++
  "ro.board.platform=msm8998" ++ nl ++
  "ro.product.brand=google" ++ nl ++
  "ro.product.model=Pixel 2" ++ nl ++
  "ro.product.cpu.abi=arm64-v8a" ++ nl ++
  "ro_build_ab_update=true" ++ nl.

(** The sample without its brand and model lines. *)
Definition sample_two_missing : string :=
  "ro.product.device=walleye" ++ nl ++
  "ro.product.manufacturer=Google" ++ nl ++
  "ro.board.platform=msm8998" ++ nl ++
  "ro.product.cpu.abi=arm64-v8a" ++ nl.

(** An emulator image, its ABI the 64-bit x86 one. *)
Definition sample_x86_64 : string :=
  "ro.product.device=generic_x86_64" ++ nl ++
  "ro.product.manufacturer=unknown" ++ nl ++
  "ro.board.platform=goldfish" ++ nl ++
  "ro.product.brand=Android" ++ nl ++
  "ro.product.model=AOSP on IA x86_64 Emulator" ++ nl ++
  "ro.product.cpu.abi=x86_64" ++ nl.

(** A file system without the file asked for. *)
Definition empty_env : Env :=
  mkEnv (fun file => Ok (if startswith file "/" then file else "/" ++ file))
        (fun path => Raise (OSError path)).

(** A process whose working directory was removed: a relative path cannot
    be made absolute. *)
Definition no_cwd_env : Env :=
  mkEnv (fun file => if startswith file "/" then Ok file
                     else Raise (OSError "."))
        (fun path => if String.eqb path "/build.prop" then Ok sample
                     else Raise (OSError path)).

(** A file that is not text in the expected encoding. *)
Definition binary_env : Env :=
  mkEnv (fun file => Ok (if startswith file "/" then file else "/" ++ file))
        (fun path => Raise (UnicodeDecodeError path)).

(** The sample with its codename key written with underscores. *)
Definition sample_underscores : string :=
  "# build properties" ++ nl ++
  "ro_product_device=walleye" ++ nl ++
  "ro.product.manufacturer=Google" ++ nl ++
  "ro.board.platform=msm8998" ++ nl ++
  "ro.product.brand=google" ++ nl ++
  "ro.product.model=Pixel 2" ++ nl ++
  "ro.product.cpu.abi=arm64-v8a" ++ nl.

(** A file of comments only. *)
Definition sample_comments : string :=
  "# begin build properties" ++ nl ++ "# end build properties" ++ nl.

(** The sample with the A/B marker only inside a comment. *)
Definition sample_ab_comment : string :=
  "ro.product.device=walleye" ++ nl ++
  "ro.product.manufacturer=Google" ++ nl ++
  "ro.board.platform=msm8998" ++ nl ++
  "ro.product.brand=google" ++ nl ++
  "ro.product.model=Pixel 2" ++ nl ++
  "ro.product.cpu.abi=arm64-v8a" ++ nl ++
  "# set ro.build.ab_update=true on A/B devices" ++ nl.

(** A manufacturer with capitals outside ASCII: SOCIETE G, each E with an
    acute accent (code point 201). *)
Definition societe : string :=
  "SOCI" ++ String "201"%char ("T" ++ String "201"%char " G").

Definition sample_latin1 : string :=
  "ro.product.device=walleye" ++ nl ++
  "ro.product.manufacturer=" ++ societe ++ nl ++
  "ro.board.platform=msm8998" ++ nl ++
  "ro.product.brand=google" ++ nl ++
  "ro.product.model=Pixel 2" ++ nl ++
  "ro.product.cpu.abi=arm64-v8a" ++ nl.

(** Two recognized keys of the codename on two lines, after a line whose
    key has underscores where the recognized key has dots. *)
Definition keys_after_wildcard_text : string :=
  "ro_product_device=zero" ++ nl ++
  "ro.product.device=first" ++ nl ++
  "ro.system.device=second" ++ nl.


(** The same manufacturer in small letters, each e with an acute accent the
    code point 233. *)
Definition societe_lower : string :=
  "soci" ++ String "233"%char ("t" ++ String "233"%char " g").
(** ** Strings: append, take, drop and lines *)


Lemma append_assoc (a b c : string) : (a ++ b) ++ c = a ++ b ++ c.
Proof. induction a as [|x a IH]; simpl; [reflexivity | now rewrite IH]. Qed.

Lemma length_append (a b : string) :
  String.length (a ++ b) = String.length a + String.length b.
Proof. induction a as [|x a IH]; simpl; [reflexivity | now rewrite IH]. Qed.

Lemma drop_append (a b : string) : drop (String.length a) (a ++ b) = b.
Proof. induction a as [|x a IH]; simpl; [now destruct b | exact IH]. Qed.

Lemma take_append (a b : string) : take (String.length a) (a ++ b) = a.
Proof.
  induction a as [|x a IH]; simpl; [now destruct b | now rewrite IH].
Qed.

Lemma take_drop (n : nat) (s : string) : take n s ++ drop n s = s.
Proof.
  revert s; induction n as [|n IH]; intros [|c s]; simpl; try reflexivity.
  now rewrite IH.
Qed.

Lemma length_take (n : nat) (s : string) :
  n <= String.length s -> String.length (take n s) = n.
Proof.
  revert s; induction n as [|n IH]; intros [|c s]; simpl; intros H;
    try reflexivity; try lia.
  rewrite IH; [reflexivity | lia].
Qed.

Lemma drop_nil (n : nat) : drop n "" = "".
Proof. now destruct n. Qed.

Lemma drop_drop (i j : nat) (s : string) : drop i (drop j s) = drop (j + i) s.
Proof.
  revert s; induction j as [|j IH]; intros s; simpl; [reflexivity|].
  destruct s as [|c s]; [apply drop_nil | apply IH].
Qed.

Lemma line_tail_cons (c : ascii) (s : string) :
  line_tail (String c s) =
  if Ascii.eqb c newline then String c s else line_tail s.
Proof.
  unfold line_tail; simpl. now destruct (Ascii.eqb c newline).
Qed.

Lemma line_split (s : string) : line_rest s ++ line_tail s = s.
Proof.
  induction s as [|c s IH]; [reflexivity|].
  rewrite line_tail_cons; simpl.
  destruct (Ascii.eqb c newline); simpl; [reflexivity | now rewrite IH].
Qed.

Lemma line_rest_one_line (s : string) : one_line (line_rest s) = true.
Proof.
  induction s as [|c s IH]; [reflexivity|]. simpl.
  destruct (Ascii.eqb c newline) eqn:E; simpl; [reflexivity|].
  now rewrite E.
Qed.

Lemma line_tail_at_eol (s : string) : at_eol (line_tail s) = true.
Proof.
  induction s as [|c s IH]; [reflexivity|].
  rewrite line_tail_cons.
  destruct (Ascii.eqb c newline) eqn:E; [simpl; exact E | exact IH].
Qed.

Lemma line_rest_append (v rest : string) :
  one_line v = true -> at_eol rest = true -> line_rest (v ++ rest) = v.
Proof.
  intros Hv Hr. induction v as [|c v IH]; simpl in *.
  - destruct rest as [|d rest]; [reflexivity|]. simpl in *. now rewrite Hr.
  - apply andb_true_iff in Hv as [Hc Hv].
    apply negb_true_iff in Hc. rewrite Hc. now rewrite IH.
Qed.

Lemma is_upper_spec (c : ascii) :
  is_upper c = true <->
  (65 <= nat_of_ascii c <= 90) \/
  (192 <= nat_of_ascii c <= 222 /\ nat_of_ascii c <> 215).
Proof.
  unfold is_upper. cbv zeta.
  rewrite orb_true_iff, !andb_true_iff, negb_true_iff, !Nat.leb_le,
    Nat.eqb_neq.
  tauto.
Qed.

(** [lower] leaves no capital. *)
Lemma lower_char_not_upper (c : ascii) : is_upper (lower_char c) = false.
Proof.
  unfold lower_char. destruct (is_upper c) eqn:U; [|exact U].
  apply is_upper_spec in U.
  destruct (is_upper (ascii_of_nat (nat_of_ascii c + 32))) eqn:V;
    [|reflexivity].
  apply is_upper_spec in V.
  rewrite nat_ascii_embedding in V by lia. lia.
Qed.

Lemma has_upper_lower (s : string) : has_upper (lower s) = false.
Proof.
  induction s as [|c s IH]; [reflexivity|]. simpl.
  now rewrite lower_char_not_upper, IH.
Qed.



Lemma lower_idempotent (s : string) : lower (lower s) = lower s.
Proof.
  induction s as [|c s IH]; [reflexivity|]. simpl. rewrite IH.
  f_equal. unfold lower_char at 1. now rewrite lower_char_not_upper.
Qed.

(** ** What the patterns match

    The matcher above is general; the seven patterns have one shape.  This
    section reads that shape off: where a pattern matches, which alternative
    is taken, and what group 1 captures. *)

Lemma bt_key (k : string) :
  forall g s K,
    bt (key k) g s K =
    if key_match k s then K g (drop (String.length k) s) else None.
Proof.
  induction k as [|c k IH]; intros g s K; simpl.
  - now destruct s.
  - destruct s as [|d s]; [reflexivity|].
    destruct (Ascii.eqb c "."%char); simpl.
    + destruct (negb (Ascii.eqb d newline)); simpl; [apply IH | reflexivity].
    + destruct (Ascii.eqb c d); simpl; [apply IH | reflexivity].
Qed.

Lemma bt_alternation (ks : list string) :
  ks <> [] ->
  forall g s K,
    (forall s', K g s' <> None) ->
    bt (alternation ks) g s K =
    match first_key ks s with
    | Some k => K g (drop (String.length k) s)
    | None => None
    end.
Proof.
  induction ks as [|k ks IH]; intros Hne g s K HK; [congruence|].
  destruct ks as [|k2 ks].
  - simpl. rewrite bt_key. now destruct (key_match k s).
  - change (alternation (k :: k2 :: ks))
      with (Alt (key k) (alternation (k2 :: ks))).
    cbn [bt first_key]. rewrite bt_key.
    destruct (key_match k s) eqn:E.
    + destruct (K g (drop (String.length k) s)) eqn:EK; [reflexivity|].
      now apply HK in EK.
    + rewrite IH by (congruence || assumption). reflexivity.
Qed.

(** The greedy starred dot runs to the end of the line when what follows
    the star accepts there. *)
Lemma star_bt_line (s : string) (k : string -> option attempt) :
  k (line_tail s) <> None -> star_bt AnyChar s k = k (line_tail s).
Proof.
  induction s as [|c s IH]; intros Hk; [reflexivity|].
  rewrite line_tail_cons in *. simpl.
  destruct (Ascii.eqb c newline); simpl; [reflexivity|].
  rewrite IH by assumption.
  destruct (k (line_tail s)); [reflexivity | congruence].
Qed.

Lemma length_line_tail (s : string) :
  String.length s =
  String.length (line_rest s) + String.length (line_tail s).
Proof. rewrite <- length_append. now rewrite line_split. Qed.

Lemma take_line_rest (s : string) :
  take (String.length s - String.length (line_tail s)) s = line_rest s.
Proof.
  rewrite length_line_tail at 1.
  replace (String.length (line_rest s) + String.length (line_tail s)
           - String.length (line_tail s)) with (String.length (line_rest s))
    by lia.
  rewrite <- (line_split s) at 2. apply take_append.
Qed.

(** Group 1 and the [$] after it: the capture is the rest of the line. *)
Lemma bt_capture (g : option string) (s : string) :
  bt (Cat (Group1 (Star AnyChar)) Eol) g s (fun g' s' => Some (g', s')) =
  Some (Some (line_rest s), line_tail s).
Proof.
  cbn [bt]. rewrite star_bt_line; rewrite line_tail_at_eol.
  - now rewrite take_line_rest.
  - discriminate.
Qed.

Lemma match_here_compile (ks : list string) (s : string) :
  ks <> [] ->
  match_here (compile ks) s =
  match first_key ks s with
  | Some k =>
      let s' := drop (String.length k) s in
      Some (Some (line_rest s'), line_tail s')
  | None => None
  end.
Proof.
  intros Hne. unfold match_here, compile.
  change (bt (Cat ?a ?b) ?g ?t ?K)
    with (bt a g t (fun g' s' => bt b g' s' K)).
  rewrite bt_alternation; [|assumption|].
  - destruct (first_key ks s); [apply bt_capture | reflexivity].
  - intros s'. rewrite bt_capture. discriminate.
Qed.

Example sample_reader :
  parse_props "/b" sample =
  Ok (mkReader "/b" sample "walleye" "google" "msm8998" "google" "Pixel 2"
        "arm64" true true).
Proof. vm_compute. reflexivity. Qed.


(** ** Where [search] finds a pattern *)

Lemma first_key_In (ks : list string) (s k : string) :
  first_key ks s = Some k -> In k ks /\ key_match k s = true.
Proof.
  induction ks as [|k0 ks IH]; simpl; [discriminate|].
  destruct (key_match k0 s) eqn:E.
  - intros [= <-]. auto.
  - intros H. destruct (IH H). auto.
Qed.

Lemma key_match_split (k s : string) :
  key_match k s = true ->
  s = take (String.length k) s ++ drop (String.length k) s /\
  String.length (take (String.length k) s) = String.length k.
Proof.
  revert s; induction k as [|c k IH]; intros s H; simpl.
  - destruct s; auto.
  - destruct s as [|d s]; simpl in H; [discriminate|].
    apply andb_true_iff in H as [_ H]. destruct (IH _ H) as [E L].
    simpl. rewrite L, <- E. auto.
Qed.

Lemma key_match_length (k s : string) :
  key_match k s = true ->
  String.length s =
  String.length k + String.length (drop (String.length k) s).
Proof.
  intros H. destruct (key_match_split _ _ H) as [E L].
  rewrite E at 1. now rewrite length_append, L.
Qed.

Lemma find_key_first (ks : list string) (s : string) (i : nat) (k : string) :
  find_key ks s = Some (i, k) -> first_key ks (drop i s) = Some k.
Proof.
  revert i; induction s as [|c s IH]; intros i; simpl.
  - destruct (first_key ks "") eqn:E; [|discriminate].
    intros [= <- <-]. exact E.
  - destruct (first_key ks (String c s)) eqn:E.
    + intros [= <- <-]. exact E.
    + destruct (find_key ks s) as [[j k']|]; [|discriminate].
      intros [= <- <-]. now apply IH.
Qed.

Lemma find_key_least (ks : list string) (s : string) (i : nat) (k : string) :
  find_key ks s = Some (i, k) ->
  forall j, j < i -> first_key ks (drop j s) = None.
Proof.
  revert i; induction s as [|c s IH]; intros i; simpl.
  - destruct (first_key ks "") eqn:E; [|discriminate].
    intros [= <- <-] j Hj. lia.
  - destruct (first_key ks (String c s)) eqn:E.
    + intros [= <- <-] j Hj. lia.
    + destruct (find_key ks s) as [[i' k']|] eqn:F; [|discriminate].
      intros [= <- <-] [|j] Hj; [exact E|].
      simpl. apply (IH i' eq_refl). lia.
Qed.

Lemma find_key_none (ks : list string) (s : string) :
  find_key ks s = None -> forall j, first_key ks (drop j s) = None.
Proof.
  induction s as [|c s IH]; simpl.
  - destruct (first_key ks "") eqn:E; [discriminate|].
    intros _ j. now rewrite drop_nil.
  - destruct (first_key ks (String c s)) eqn:E; [discriminate|].
    destruct (find_key ks s) as [[i' k']|] eqn:F; [discriminate|].
    intros _ [|j]; [exact E | simpl; now apply IH].
Qed.

Lemma find_key_bound (ks : list string) (s : string) (i : nat) (k : string) :
  find_key ks s = Some (i, k) -> i <= String.length s.
Proof.
  revert i; induction s as [|c s IH]; intros i; simpl.
  - destruct (first_key ks ""); [|discriminate]. intros [= <- <-]. lia.
  - destruct (first_key ks (String c s)).
    + intros [= <- <-]. lia.
    + destruct (find_key ks s) as [[i' k']|] eqn:F; [|discriminate].
      intros [= <- <-]. specialize (IH i' eq_refl). lia.
Qed.

(** A match at some offset makes [find_key] succeed, at that offset or to
    its left. *)
Lemma find_key_complete (ks : list string) (s : string) (j : nat) (k : string) :
  first_key ks (drop j s) = Some k ->
  exists i k', find_key ks s = Some (i, k') /\ i <= j.
Proof.
  intros H. destruct (find_key ks s) as [[i k']|] eqn:F.
  - exists i, k'. split; [reflexivity|].
    destruct (le_lt_dec i j) as [L|L]; [exact L|].
    rewrite (find_key_least _ _ F L) in H. discriminate.
  - rewrite (find_key_none _ _ F) in H. discriminate.
Qed.

(** The leftmost match is the only one with nothing matching before it. *)
Lemma find_key_unique (ks : list string) (s : string) (j : nat) (k : string) :
  first_key ks (drop j s) = Some k ->
  j <= String.length s ->
  (forall i, i < j -> first_key ks (drop i s) = None) ->
  find_key ks s = Some (j, k).
Proof.
  intros H Hj Hmin. destruct (find_key_complete _ _ _ H) as (i & k' & F & L).
  assert (i = j) as ->.
  { destruct (Nat.eq_dec i j) as [E|E]; [exact E|].
    assert (i < j) as Lt by lia.
    specialize (Hmin i Lt). rewrite (find_key_first _ _ F) in Hmin.
    discriminate. }
  rewrite (find_key_first _ _ F) in H. now injection H as ->.
Qed.

Lemma attempt_length (k s : string) :
  key_match k s = true ->
  String.length s - String.length (line_tail (drop (String.length k) s)) =
  String.length k + String.length (line_rest (drop (String.length k) s)).
Proof.
  intros M. pose proof (key_match_length _ _ M) as L.
  pose proof (length_line_tail (drop (String.length k) s)) as L2. lia.
Qed.

Lemma search_from_unfold (r : regex) (s : string) (pos : nat) :
  search_from r s pos =
  match match_here r s with
  | Some (g, s') =>
      Some (mkMatch pos (pos + (String.length s - String.length s')) g)
  | None =>
      match s with
      | EmptyString => None
      | String _ s' => search_from r s' (S pos)
      end
  end.
Proof. now destruct s. Qed.

Lemma find_key_unfold (ks : list string) (s : string) :
  find_key ks s =
  match first_key ks s with
  | Some k => Some (0, k)
  | None =>
      match s with
      | EmptyString => None
      | String _ s' =>
          match find_key ks s' with
          | Some (i, k) => Some (S i, k)
          | None => None
          end
      end
  end.
Proof. now destruct s. Qed.

Section SearchCompiled.

Variable ks : list string.
Hypothesis ks_nonempty : ks <> [].

(** [search] on a compiled pattern, read through [find_key]: the match
    starts at the leftmost offset where an alternative matches, and group 1
    is the rest of that line after the key. *)
Lemma search_from_compile (s : string) (pos : nat) :
  search_from (compile ks) s pos =
  match find_key ks s with
  | Some (i, k) =>
      let v := line_rest (drop (i + String.length k) s) in
      Some (mkMatch (pos + i)
              (pos + i + String.length k + String.length v) (Some v))
  | None => None
  end.
Proof.
  revert pos; induction s as [|c s IH]; intros pos;
    rewrite search_from_unfold, find_key_unfold, match_here_compile
      by assumption.
  - destruct (first_key ks "") as [k|] eqn:E; [|reflexivity].
    destruct (first_key_In _ _ E) as [_ M]. cbv beta iota zeta.
    rewrite (attempt_length _ _ M), Nat.add_0_r, Nat.add_assoc.
    reflexivity.
  - destruct (first_key ks (String c s)) as [k|] eqn:E.
    + destruct (first_key_In _ _ E) as [_ M]. cbv beta iota zeta.
      rewrite (attempt_length _ _ M), Nat.add_0_r, Nat.add_assoc.
      reflexivity.
    + rewrite IH. destruct (find_key ks s) as [[i k]|]; [|reflexivity].
      cbv zeta. rewrite !Nat.add_succ_r, !Nat.add_succ_l. reflexivity.
Qed.

Lemma search_compile (s : string) :
  search (compile ks) s =
  match find_key ks s with
  | Some (i, k) =>
      let v := line_rest (drop (i + String.length k) s) in
      Some (mkMatch i (i + String.length k + String.length v) (Some v))
  | None => None
  end.
Proof. unfold search. now rewrite search_from_compile. Qed.

(** Group 1 takes part in every match. *)
Lemma search_group1 (s : string) (m : Match) :
  search (compile ks) s = Some m -> m_group1 m = Some (group1 m).
Proof.
  rewrite search_compile. destruct (find_key ks s) as [[i k]|]; [|discriminate].
  now intros [= <-].
Qed.

End SearchCompiled.

(** ** Keys as they stand in a file *)

Lemma drop_append_le (i : nat) (x y : string) :
  i <= String.length x -> drop i (x ++ y) = drop i x ++ y.
Proof.
  revert x; induction i as [|i IH]; intros x H; [reflexivity|].
  destruct x as [|c x]; simpl in *; [lia|]. apply IH. lia.
Qed.

(** A key stands where it is written. *)
Lemma key_match_self (k s : string) :
  one_line k = true -> key_match k (k ++ s) = true.
Proof.
  induction k as [|c k IH]; simpl; [reflexivity|].
  intros H. apply andb_true_iff in H as [Hc Hk].
  rewrite (IH Hk), andb_true_r.
  destruct (Ascii.eqb c "."%char); [exact Hc | apply Ascii.eqb_refl].
Qed.

(** A key pattern never reaches over the end of a line: what comes after
    the line does not change whether it matches. *)
Lemma key_match_line (k x later : string) :
  one_line k = true -> at_eol later = true ->
  key_match k (x ++ later) = key_match k x.
Proof.
  intros Hk Hl. revert x; induction k as [|c k IH]; intros x;
    [reflexivity|].
  simpl in Hk. apply andb_true_iff in Hk as [Hc Hk].
  destruct x as [|d x]; simpl.
  - destruct later as [|e later]; [reflexivity|]. simpl in Hl.
    apply Ascii.eqb_eq in Hl as ->.
    destruct (Ascii.eqb c "."%char).
    + now rewrite Ascii.eqb_refl.
    + apply negb_true_iff in Hc. now rewrite Hc.
  - now rewrite (IH Hk).
Qed.

Lemma keys_ok_one_line (ks : list string) (k : string) :
  keys_ok ks = true -> In k ks -> one_line k = true.
Proof.
  induction ks as [|k0 ks IH]; simpl; [contradiction|].
  intros H. apply andb_true_iff in H as [H H3].
  apply andb_true_iff in H as [H1 H2].
  intros [<-|Hin]; auto.
Qed.

Lemma first_key_line (ks : list string) (x later : string) :
  keys_ok ks = true -> at_eol later = true ->
  first_key ks (x ++ later) = first_key ks x.
Proof.
  intros Hok Hl. induction ks as [|k ks IH]; [reflexivity|].
  simpl. rewrite key_match_line; auto.
  - rewrite IH; [reflexivity|]. simpl in Hok.
    now apply andb_true_iff in Hok as [_ ?].
  - eapply keys_ok_one_line; [exact Hok | now left].
Qed.

Lemma clash_no_match (k k' s : string) :
  clash k k' = true -> key_match k (k' ++ s) = false.
Proof.
  revert k'; induction k as [|c k IH]; intros k'; simpl; [discriminate|].
  destruct k' as [|d k']; [discriminate|]. simpl.
  intros H. apply orb_true_iff in H as [H|H].
  - apply andb_true_iff in H as [H1 H2].
    apply negb_true_iff in H1, H2. now rewrite H1, H2.
  - rewrite (IH _ H). apply andb_false_r.
Qed.

(** Where a key stands, it is that key's alternative that is taken. *)
Lemma first_key_literal (ks : list string) (k s : string) :
  keys_ok ks = true -> In k ks -> first_key ks (k ++ s) = Some k.
Proof.
  induction ks as [|k0 ks IH]; simpl; [contradiction|].
  intros H. apply andb_true_iff in H as [H H3].
  apply andb_true_iff in H as [H1 H2].
  destruct (key_match k0 (k ++ s)) eqn:E.
  - intros [->|Hin]; [reflexivity|].
    rewrite forallb_forall in H2.
    rewrite (clash_no_match _ _ _ (H2 _ Hin)) in E. discriminate.
  - intros [->|Hin]; [|now apply IH].
    rewrite key_match_self in E; [discriminate | assumption].
Qed.

Lemma prop_keys_ok (p : prop) : keys_ok (prop_keys p) = true.
Proof. destruct p; vm_compute; reflexivity. Qed.

Lemma prop_keys_nonempty (p : prop) : prop_keys p <> [].
Proof. destruct p; discriminate. Qed.

Lemma prop_re_compile (p : prop) : prop_re p = compile (prop_keys p).
Proof. now destruct p. Qed.

(** What comes after the line of the match does not matter for what is
    before it. *)
Lemma no_key_before_line (ks : list string) (x later : string) (n : nat) :
  keys_ok ks = true -> at_eol later = true -> n <= String.length x ->
  no_key_before ks x n -> no_key_before ks (x ++ later) n.
Proof.
  intros Hok Hl Hn H i Hi.
  rewrite drop_append_le by lia. rewrite first_key_line by assumption.
  now apply H.
Qed.



(** ** The leftmost match, for any pattern *)

Lemma search_from_least (r : regex) (s : string) :
  forall pos m,
    search_from r s pos = Some m ->
    pos <= m_start m /\
    forall i, i < m_start m - pos -> match_here r (drop i s) = None.
Proof.
  induction s as [|c s IH]; intros pos m; rewrite search_from_unfold.
  - destruct (match_here r "") as [[g s']|]; [|discriminate].
    intros [= <-]. cbn [m_start]. split; [lia|]. intros i Hi. lia.
  - destruct (match_here r (String c s)) as [[g s']|] eqn:E.
    + intros [= <-]. cbn [m_start]. split; [lia|]. intros i Hi. lia.
    + intros H. destruct (IH _ _ H) as [L Hmin]. split; [lia|].
      intros [|i] Hi; [exact E|]. simpl. apply Hmin. lia.
Qed.

Lemma search_from_none (r : regex) (s : string) :
  forall pos,
    search_from r s pos = None ->
    forall i, match_here r (drop i s) = None.
Proof.
  induction s as [|c s IH]; intros pos; rewrite search_from_unfold.
  - destruct (match_here r "") as [[g s']|] eqn:E; [discriminate|].
    intros _ i. now rewrite drop_nil.
  - destruct (match_here r (String c s)) as [[g s']|] eqn:E; [discriminate|].
    intros H [|i]; [exact E|]. simpl. exact (IH _ H i).
Qed.

Lemma no_match_beforeb_spec (r : regex) (s : string) (n : nat) :
  no_match_beforeb r s n = true -> no_match_before r s n.
Proof.
  unfold no_match_beforeb, no_match_before, search.
  destruct (search_from r s 0) as [m|] eqn:E; intros H i Hi.
  - apply Nat.leb_le in H. destruct (search_from_least _ _ _ E) as [_ Hmin].
    apply Hmin. lia.
  - exact (search_from_none _ _ _ E i).
Qed.

Lemma match_here_none (ks : list string) (s : string) :
  ks <> [] ->
  (match_here (compile ks) s = None <-> first_key ks s = None).
Proof.
  intros Hne. rewrite match_here_compile by assumption.
  destruct (first_key ks s); split; (reflexivity || discriminate).
Qed.

(** For a compiled pattern, to match somewhere is for one of its keys to
    match there. *)
Lemma no_match_before_keys (ks : list string) (s : string) (n : nat) :
  ks <> [] ->
  (no_match_before (compile ks) s n <-> no_key_before ks s n).
Proof.
  intros Hne. unfold no_match_before, no_key_before.
  split; intros H i Hi; apply (match_here_none _ Hne); now apply H.
Qed.

(** ** The match [search] returns *)

Lemma key_match_take (k s : string) :
  key_match k s = true -> key_match k (take (String.length k) s) = true.
Proof.
  revert s; induction k as [|c k IH]; intros s; simpl; [reflexivity|].
  destruct s as [|d s]; [discriminate|]. simpl.
  intros H. apply andb_true_iff in H as [H1 H2].
  now rewrite H1, (IH _ H2).
Qed.

Section SearchResult.

Variable ks : list string.
Hypothesis ks_nonempty : ks <> [].

(** Every match is a key text followed by the capture, which runs to the end
    of the line, and nothing matches to the left of it. *)
Lemma search_sound (content : string) (m : Match) :
  search (compile ks) content = Some m ->
  exists pre t rest k,
    content = pre ++ t ++ group1 m ++ rest /\
    String.length pre = m_start m /\
    first_key ks (t ++ group1 m ++ rest) = Some k /\
    In k ks /\ key_match k t = true /\ String.length t = String.length k /\
    one_line (group1 m) = true /\ at_eol rest = true /\
    no_key_before ks content (m_start m) /\
    match_here (compile ks) (t ++ group1 m ++ rest) =
    Some (Some (group1 m), rest).
Proof.
  rewrite search_compile by assumption.
  destruct (find_key ks content) as [[i k]|] eqn:F; [|discriminate].
  intros [= <-]. unfold group1; cbn [m_group1 m_start].
  pose proof (find_key_first _ _ F) as FK.
  destruct (first_key_In _ _ FK) as [Hin M].
  destruct (key_match_split _ _ M) as [E L].
  rewrite <- drop_drop.
  set (s0 := drop i content) in *.
  set (s1 := drop (String.length k) s0) in *.
  assert (take (String.length k) s0 ++ line_rest s1 ++ line_tail s1 = s0)
    as Es0 by (rewrite line_split; now rewrite <- E).
  exists (take i content), (take (String.length k) s0), (line_tail s1), k.
  rewrite Es0. repeat split; auto.
  - unfold s0. now rewrite take_drop.
  - apply length_take. apply (find_key_bound _ _ F).
  - now apply key_match_take.
  - apply line_rest_one_line.
  - apply line_tail_at_eol.
  - exact (find_key_least _ _ F).
  - rewrite match_here_compile by assumption. now rewrite FK.
Qed.

(** Conversely, a key text with nothing matching to its left is the match,
    and the capture is the rest of its line. *)
Lemma search_leftmost (pre t v rest k : string) :
  first_key ks (t ++ v ++ rest) = Some k ->
  String.length t = String.length k ->
  one_line v = true -> at_eol rest = true ->
  no_key_before ks (pre ++ t ++ v ++ rest) (String.length pre) ->
  search (compile ks) (pre ++ t ++ v ++ rest) =
  Some (mkMatch (String.length pre)
          (String.length pre + String.length k + String.length v) (Some v)).
Proof.
  intros FK L Hv Hr Hmin.
  rewrite search_compile by assumption.
  rewrite (@find_key_unique ks _ (String.length pre) k).
  - cbv zeta. rewrite <- drop_drop, drop_append, <- L, drop_append.
    now rewrite line_rest_append.
  - now rewrite drop_append.
  - rewrite length_append. lia.
  - exact Hmin.
Qed.

(** A match anywhere makes the search succeed. *)
Lemma search_some (pre s k : string) :
  In k ks -> key_match k s = true ->
  exists m, search (compile ks) (pre ++ s) = Some m.
Proof.
  intros Hin M. rewrite search_compile by assumption.
  assert (exists k', first_key ks (drop (String.length pre) (pre ++ s))
                     = Some k') as [k' FK].
  { rewrite drop_append. clear - Hin M.
    induction ks as [|k0 l IH]; [contradiction|]. simpl.
    destruct (key_match k0 s) eqn:E; [now exists k0|].
    destruct Hin as [->|Hin]; [congruence | now apply IH]. }
  destruct (find_key_complete _ _ _ FK) as (i & k2 & -> & _).
  eexists. reflexivity.
Qed.

End SearchResult.

(** ** [get_prop] and [__init__] *)

Lemma get_prop_found (p : prop) (content : string) :
  get_prop content (prop_re p) (prop_name p) =
  match search (prop_re p) content with
  | Some m => Ok (group1 m)
  | None => Raise (missing_error p)
  end.
Proof. reflexivity. Qed.

(** The key [k] of [p] stands at offset [length a], the value [v] after it
    runs to the end of the line, and no key of [p] matches before it: then
    [get_prop] returns [v], whatever the later lines hold. *)
Lemma get_prop_literal (p : prop) (a k v later : string) :
  In k (prop_keys p) -> one_line v = true -> at_eol later = true ->
  no_match_before (prop_re p) (a ++ k ++ v) (String.length a) ->
  search (prop_re p) (a ++ k ++ v ++ later) =
  Some (mkMatch (String.length a)
          (String.length a + String.length k + String.length v) (Some v)).
Proof.
  intros Hin Hv Hl Hmin. rewrite prop_re_compile in *.
  apply no_match_before_keys in Hmin; [|apply prop_keys_nonempty].
  apply search_leftmost; auto.
  - apply prop_keys_nonempty.
  - apply first_key_literal; [apply prop_keys_ok | exact Hin].
  - replace (a ++ k ++ v ++ later) with ((a ++ k ++ v) ++ later)
      by now rewrite !append_assoc.
    apply no_key_before_line; auto.
    + apply prop_keys_ok.
    + rewrite length_append. lia.
Qed.

(** One call of [get_prop] in [__init__]: the search of [P] finds a match
    and the run goes on, or it finds none and [P] is the property the error
    names, the calls before it having found theirs. *)
Ltac call_get_prop P E :=
  rewrite (get_prop_found P);
  destruct (search (prop_re P) _) as [?m|] eqn:E; cbn [bind];
  [| exists P; unfold found; rewrite E; repeat split;
     intros q Hq; destruct q; simpl in Hq; try lia;
     match goal with
     | H : search ?r ?c = Some _ |- truthy (search ?r ?c) = true =>
         now rewrite H
     end ].

(** [__init__] after the read, call by call. *)
Lemma parse_props_spec (filename content : string) :
  match parse_props filename content with
  | Ok r =>
      (forall p, exists m,
          search (prop_re p) content = Some m /\
          field p r = from_capture p (group1 m)) /\
      device_is_ab r = truthy (search DEVICE_IS_AB_RE content) /\
      device_has_64bit_arch r = is_64bit (arch r) /\
      _filename r = filename /\ _content r = content
  | Raise e =>
      exists p, found p content = false /\ e = missing_error p /\
                forall q, prop_index q < prop_index p ->
                          found q content = true
  end.
Proof.
  unfold parse_props.
  call_get_prop Codename E1.
  call_get_prop Manufacturer E2.
  call_get_prop Platform E3.
  call_get_prop Brand E4.
  call_get_prop Model E5.
  call_get_prop Arch E6.
  cbv zeta. repeat split.
  intros p. destruct p; eexists; (split; [eassumption | reflexivity]).
Qed.

(** ** Architecture *)

Lemma startswith_append (s p q : string) :
  startswith s (p ++ q) = true -> startswith s p = true.
Proof.
  revert s; induction p as [|c p IH]; intros s; simpl; [reflexivity|].
  destruct s as [|d s]; [discriminate|].
  intros H. apply andb_true_iff in H as [H1 H2].
  now rewrite H1, (IH _ H2).
Qed.

(** The branch for [x86_64] is dead: its test is never reached with a
    string that passes it. *)
Lemma parse_arch_order (s : string) :
  parse_arch s =
  if startswith s "arm64" then "arm64"
  else if startswith s "armeabi" then "arm"
  else if startswith s "x86" then "x86"
  else if startswith s "mips" then "mips"
  else "unknown".
Proof.
  unfold parse_arch.
  destruct (startswith s "arm64"); [reflexivity|].
  destruct (startswith s "armeabi"); [reflexivity|].
  destruct (startswith s "x86") eqn:E; [reflexivity|].
  destruct (startswith s "x86_64") eqn:E2; [|reflexivity].
  rewrite (startswith_append s "x86" "_64" E2) in E. discriminate.
Qed.

Lemma parse_arch_values (s : string) :
  In (parse_arch s) ["arm64"; "arm"; "x86"; "mips"; "unknown"].
Proof.
  rewrite parse_arch_order.
  destruct (startswith s "arm64"); [simpl; auto|].
  destruct (startswith s "armeabi"); [simpl; auto|].
  destruct (startswith s "x86"); [simpl; auto|].
  destruct (startswith s "mips"); simpl; auto 6.
Qed.

(** C1: [parse_arch] classifies by prefix in the order arm64, armeabi, x86,
    mips: the six sample values come out as the specification lists them,
    an ABI that starts with x86_64 is classified x86, and no input is ever
    classified x86_64. *)
Theorem parse_arch_classifies :
  parse_arch "arm64-v8a" = "arm64" /\
  parse_arch "armeabi-v7a" = "arm" /\
  parse_arch "x86" = "x86" /\
  parse_arch "x86_64" = "x86" /\
  parse_arch "mips" = "mips" /\
  parse_arch "riscv64" = "unknown" /\
  (forall s,
      parse_arch s =
      if startswith s "arm64" then "arm64"
      else if startswith s "armeabi" then "arm"
      else if startswith s "x86" then "x86"
      else if startswith s "mips" then "mips"
      else "unknown") /\
  (forall s, parse_arch s <> "x86_64").
Proof.
  repeat split; try reflexivity.
  - apply parse_arch_order.
  - intros s H. pose proof (parse_arch_values s) as V. rewrite H in V.
    simpl in V. intuition discriminate.
Qed.

(** C2, as stated, fails: on a file whose ABI is mips, construction succeeds
    and the arch attribute is "mips", which is not one of the five strings
    the claim lists. *)
Lemma arch_outside_listed_set :
  parse_props "/build.prop" sample_mips =
  Ok (mkReader "/build.prop" sample_mips "ci20" "imagination" "xb4780"
        "Ingenic" "CI20" "mips" false false) /\
  ~ In "mips" ["arm64"; "arm"; "x86"; "x86_64"; "unknown"].
Proof.
  split; [vm_compute; reflexivity|].
  simpl. intuition discriminate.
Qed.

(** C2, amended: whenever construction succeeds, the arch attribute is one
    of "arm64", "arm", "x86", "x86_64", "mips", "unknown"; of these,
    "x86_64" never occurs. *)
Theorem arch_in_closed_set (filename content : string) (r : BuildPropReader) :
  parse_props filename content = Ok r ->
  In (arch r) ["arm64"; "arm"; "x86"; "x86_64"; "mips"; "unknown"] /\
  arch r <> "x86_64".
Proof.
  intros H. pose proof (parse_props_spec filename content) as S.
  rewrite H in S. destruct S as [F _].
  destruct (F Arch) as (m & _ & E). cbn [field from_capture] in E.
  rewrite E. pose proof (parse_arch_values (group1 m)) as V.
  split.
  - simpl in V |- *. intuition.
  - intros E2. rewrite E2 in V. simpl in V. intuition discriminate.
Qed.

Lemma arch_in_closed_set_witness :
  parse_props "/build.prop" sample_mips =
  Ok (mkReader "/build.prop" sample_mips "ci20" "imagination" "xb4780"
        "Ingenic" "CI20" "mips" false false) /\
  In "mips" ["arm64"; "arm"; "x86"; "x86_64"; "mips"; "unknown"] /\
  "mips" <> "x86_64".
Proof.
  assert (parse_props "/build.prop" sample_mips =
          Ok (mkReader "/build.prop" sample_mips "ci20" "imagination"
                "xb4780" "Ingenic" "CI20" "mips" false false)) as H
    by (vm_compute; reflexivity).
  split; [exact H|].
  exact (arch_in_closed_set "/build.prop" sample_mips H).
Defined.

(** C5: whenever construction succeeds, [device_has_64bit_arch] is true
    exactly when the arch attribute is "arm64"; it is false for "x86". *)
Theorem has_64bit_iff_arm64 (filename content : string) (r : BuildPropReader) :
  parse_props filename content = Ok r ->
  (device_has_64bit_arch r = true <-> arch r = "arm64") /\
  (arch r = "x86" -> device_has_64bit_arch r = false).
Proof.
  intros H. pose proof (parse_props_spec filename content) as S.
  rewrite H in S. destruct S as (F & _ & -> & _).
  destruct (F Arch) as (m & _ & E). cbn [field from_capture] in E.
  pose proof (parse_arch_values (group1 m)) as V. rewrite <- E in V.
  unfold is_64bit. simpl in V.
  destruct V as [<-|[<-|[<-|[<-|[<-|[]]]]]]; simpl;
    (split; [split; (reflexivity || discriminate) |
             (reflexivity || discriminate)]).
Qed.

Lemma has_64bit_iff_arm64_witness :
  parse_props "/build.prop" sample =
  Ok (mkReader "/build.prop" sample "walleye" "google" "msm8998" "google"
        "Pixel 2" "arm64" true true) /\
  (true = true <-> "arm64" = "arm64") /\ ("arm64" = "x86" -> true = false).
Proof.
  assert (parse_props "/build.prop" sample =
          Ok (mkReader "/build.prop" sample "walleye" "google" "msm8998"
                "google" "Pixel 2" "arm64" true true)) as H
    by (vm_compute; reflexivity).
  split; [exact H|].
  exact (has_64bit_iff_arm64 "/build.prop" sample H).
Defined.

(** ** Missing properties *)

Lemma prop_index_inj (p q : prop) : prop_index p = prop_index q -> p = q.
Proof. destruct p, q; simpl; intros H; (reflexivity || discriminate H). Qed.

(** The error names the first call of [__init__] whose pattern finds
    nothing. *)
Lemma first_missing_raises (filename content : string) (p : prop) :
  found p content = false ->
  (forall q, prop_index q < prop_index p -> found q content = true) ->
  parse_props filename content = Raise (missing_error p).
Proof.
  intros Hp Hq. pose proof (parse_props_spec filename content) as S.
  destruct (parse_props filename content) as [r|e].
  - destruct S as [F _]. destruct (F p) as (m & E & _).
    unfold found in Hp. rewrite E in Hp. discriminate.
  - destruct S as (p' & Hp' & -> & Hq').
    destruct (Nat.lt_trichotomy (prop_index p') (prop_index p))
      as [L|[L|L]].
    + rewrite (Hq _ L) in Hp'. discriminate.
    + now rewrite (prop_index_inj _ _ L).
    + rewrite (Hq' _ L) in Hp. discriminate.
Qed.

Lemma missing_error_inj (p q : prop) :
  missing_error p = missing_error q -> p = q.
Proof. destruct p, q; intros H; (reflexivity || discriminate H). Qed.

(** C3: when the pattern of exactly one required property matches nowhere in
    the content, construction raises the error that names that property;
    whenever construction raises, the error is the one of a property whose
    pattern matches nowhere; when every pattern matches, construction
    returns a reader; and the errors of different properties differ. *)
Theorem missing_property_error (filename content : string) :
  (forall p,
      found p content = false ->
      (forall q, q <> p -> found q content = true) ->
      parse_props filename content = Raise (missing_error p)) /\
  (forall e,
      parse_props filename content = Raise e ->
      exists p, found p content = false /\ e = missing_error p) /\
  ((forall p, found p content = true) ->
   exists r, parse_props filename content = Ok r) /\
  (forall p q, missing_error p = missing_error q -> p = q).
Proof.
  repeat split.
  - intros p Hp Hq. apply first_missing_raises; [exact Hp|].
    intros q L. apply Hq. intros ->. lia.
  - intros e H. pose proof (parse_props_spec filename content) as S.
    rewrite H in S. destruct S as (p & Hp & He & _). now exists p.
  - intros H. pose proof (parse_props_spec filename content) as S.
    destruct (parse_props filename content) as [r|e]; [now exists r|].
    destruct S as (p & Hp & _). rewrite H in Hp. discriminate.
  - apply missing_error_inj.
Qed.

Lemma missing_property_error_witness :
  found Model sample_no_model = false /\
  (forall q, q <> Model -> found q sample_no_model = true) /\
  parse_props "/build.prop" sample_no_model =
  Raise (AssertionError "Device model could not be found in build.prop").
Proof.
  assert (found Model sample_no_model = false) as H1
    by (vm_compute; reflexivity).
  assert (forall q, q <> Model -> found q sample_no_model = true) as H2
    by (intros q Hq; destruct q; try (vm_compute; reflexivity);
        now elim Hq).
  split; [exact H1|]. split; [exact H2|].
  exact (proj1 (missing_property_error "/build.prop" sample_no_model)
           Model H1 H2).
Defined.

(** ** Determinism *)

(** The path is stored and nothing else is done with it. *)
Lemma parse_props_path (f1 f2 content : string) :
  same_outcome (parse_props f1 content) (parse_props f2 content).
Proof.
  unfold parse_props.
  destruct (get_prop content DEVICE_CODENAME_RE "codename");
    cbn [bind same_outcome]; [|reflexivity].
  destruct (get_prop content DEVICE_MANUFACTURER_RE "manufacturer");
    cbn [bind same_outcome]; [|reflexivity].
  destruct (get_prop content DEVICE_PLATFORM_RE "platform");
    cbn [bind same_outcome]; [|reflexivity].
  destruct (get_prop content DEVICE_BRAND_RE "brand");
    cbn [bind same_outcome]; [|reflexivity].
  destruct (get_prop content DEVICE_MODEL_RE "model");
    cbn [bind same_outcome]; [|reflexivity].
  destruct (get_prop content DEVICE_ARCH_RE "arch");
    cbn [bind same_outcome]; [|reflexivity].
  unfold same_fields; simpl. repeat split.
Qed.

(** C9: two runs of the constructor that read the same content, from
    whatever paths and working directories, end alike: both raise the same
    error, or both return readers whose eight public attributes agree. *)
Theorem construction_deterministic
    (e1 e2 : Env) (file1 file2 path1 path2 content : string) :
  absolute e1 file1 = Ok path1 -> read_text e1 path1 = Ok content ->
  absolute e2 file2 = Ok path2 -> read_text e2 path2 = Ok content ->
  same_outcome (__init__ e1 file1) (__init__ e2 file2).
Proof.
  intros A1 H1 A2 H2. unfold __init__. rewrite A1, A2. cbn [bind].
  rewrite H1, H2. cbn [bind]. apply parse_props_path.
Qed.

Lemma construction_deterministic_witness :
  absolute home_env "build.prop" = Ok "/home/a/build.prop" /\
  read_text home_env "/home/a/build.prop" = Ok sample /\
  absolute tmp_env "/tmp/system/build.prop" = Ok "/tmp/system/build.prop" /\
  read_text tmp_env "/tmp/system/build.prop" = Ok sample /\
  same_outcome (__init__ home_env "build.prop")
    (__init__ tmp_env "/tmp/system/build.prop").
Proof.
  assert (absolute home_env "build.prop" = Ok "/home/a/build.prop") as A1
    by reflexivity.
  assert (read_text home_env "/home/a/build.prop" = Ok sample) as H1
    by reflexivity.
  assert (absolute tmp_env "/tmp/system/build.prop"
          = Ok "/tmp/system/build.prop") as A2 by reflexivity.
  assert (read_text tmp_env "/tmp/system/build.prop" = Ok sample) as H2
    by reflexivity.
  repeat (split; [assumption|]).
  exact (construction_deterministic home_env tmp_env "build.prop"
           "/tmp/system/build.prop" A1 H1 A2 H2).
Defined.

(** ** Where the patterns match and what they capture *)

(** A recognized key is found wherever it stands. *)
Lemma found_literal (p : prop) (pre k rest : string) :
  In k (prop_keys p) -> found p (pre ++ k ++ rest) = true.
Proof.
  intros Hin. unfold found. rewrite prop_re_compile.
  destruct (@search_some (prop_keys p) (prop_keys_nonempty p)
              pre (k ++ rest) k Hin) as [m ->]; [|reflexivity].
  apply key_match_self.
  eapply keys_ok_one_line; [apply prop_keys_ok | exact Hin].
Qed.

(** C6, as stated, fails: the codename pattern matches the key that stands
    after the [#] of a comment, at offset 1, which is not the start of a
    line, and the reader takes its codename from there. *)
Lemma key_matched_mid_line :
  search DEVICE_CODENAME_RE sample_commented =
  Some (mkMatch 1 25 (Some "taimen")) /\
  at_line_start sample_commented 1 = false /\
  parse_props "/build.prop" sample_commented =
  Ok (mkReader "/build.prop" sample_commented "taimen" "google" "msm8998"
        "google" "Pixel 2" "arm64" true true).
Proof. repeat split; vm_compute; reflexivity. Qed.

(** The pattern matches at a recognized key, whatever stands before the
    key, and captures what follows it on the line. *)
Lemma match_here_literal (p : prop) (k rest : string) :
  In k (prop_keys p) ->
  match_here (prop_re p) (k ++ rest) =
  Some (Some (line_rest rest), line_tail rest).
Proof.
  intros Hin. rewrite prop_re_compile.
  rewrite match_here_compile by apply prop_keys_nonempty.
  rewrite first_key_literal; [|apply prop_keys_ok | exact Hin].
  cbv zeta. now rewrite drop_append.
Qed.

(** C6, amended: the pattern of a field matches at a recognized key wherever
    the key stands in the content, at the start of a line or inside one,
    and captures what follows the key on its line; and in every match the
    captured value is exactly the rest of the line after the text the key
    pattern matched, up to the next line feed or the end of the content. *)
Theorem capture_is_rest_of_line (p : prop) :
  (forall pre k rest,
      In k (prop_keys p) ->
      match_here (prop_re p) (drop (String.length pre) (pre ++ k ++ rest)) =
      Some (Some (line_rest rest), line_tail rest) /\
      found p (pre ++ k ++ rest) = true) /\
  (forall content m,
      search (prop_re p) content = Some m ->
      exists pre t rest k,
        content = pre ++ t ++ group1 m ++ rest /\
        String.length pre = m_start m /\
        In k (prop_keys p) /\
        key_match k t = true /\ String.length t = String.length k /\
        one_line (group1 m) = true /\ at_eol rest = true).
Proof.
  split.
  - intros pre k rest Hin. split.
    + rewrite drop_append. now apply match_here_literal.
    + now apply found_literal.
  - intros content m H. rewrite prop_re_compile in H.
    destruct (search_sound (prop_keys_nonempty p) _ H)
      as (pre & t & rest & k & E & L & _ & Hin & M & Lt & Hv & Hr & _).
    exists pre, t, rest, k. repeat split; assumption.
Qed.

Lemma capture_is_rest_of_line_witness :
  In "ro.product.device=" (prop_keys Codename) /\
  match_here (prop_re Codename)
    (drop (String.length "#") ("#" ++ "ro.product.device=" ++ "taimen")) =
  Some (Some "taimen", "") /\
  search (prop_re Codename) sample_commented =
  Some (mkMatch 1 25 (Some "taimen")) /\
  exists pre t rest k,
    sample_commented = pre ++ t ++ "taimen" ++ rest /\
    String.length pre = 1 /\
    In k (prop_keys Codename) /\
    key_match k t = true /\ String.length t = String.length k /\
    one_line "taimen" = true /\ at_eol rest = true.
Proof.
  assert (In "ro.product.device=" (prop_keys Codename)) as H1
    by (simpl; auto).
  assert (search (prop_re Codename) sample_commented =
          Some (mkMatch 1 25 (Some "taimen"))) as H2
    by (vm_compute; reflexivity).
  split; [exact H1|]. split.
  - exact (proj1 (proj1 (capture_is_rest_of_line Codename) "#"
                    "ro.product.device=" "taimen" H1)).
  - split; [exact H2|].
    exact (proj2 (capture_is_rest_of_line Codename) sample_commented _ H2).
Defined.

(** The leftmost match decides: a key of [p] with nothing matching before
    it gives its value, whatever the later lines hold. *)
Lemma get_prop_leftmost (p : prop) (a k v later : string) :
  In k (prop_keys p) -> one_line v = true -> at_eol later = true ->
  no_match_before (prop_re p) (a ++ k ++ v) (String.length a) ->
  get_prop (a ++ k ++ v ++ later) (prop_re p) (prop_name p) = Ok v.
Proof.
  intros Hin Hv Hl Hmin. rewrite get_prop_found.
  now rewrite (get_prop_literal p a k v later Hin Hv Hl Hmin).
Qed.

(** C8: two recognized keys of the codename stand on the second and third
    lines of this content and none on the first, yet [get_prop] returns the
    value of the first line: the dots of the pattern are not escaped, and
    the text [ro_product_device=] of that line matches the key
    [ro.product.device=] before the earliest recognized key does. *)
Theorem wildcard_text_beats_keys :
  lines keys_after_wildcard_text =
  ["ro_product_device=zero"; "ro.product.device=first";
   "ro.system.device=second"; ""] /\
  In "ro.product.device=" (prop_keys Codename) /\
  In "ro.system.device=" (prop_keys Codename) /\
  forallb (fun k => negb (contains "ro_product_device=zero" k))
    (prop_keys Codename) = true /\
  search DEVICE_CODENAME_RE keys_after_wildcard_text =
  Some (mkMatch 0 22 (Some "zero")) /\
  get_prop keys_after_wildcard_text DEVICE_CODENAME_RE "codename" =
  Ok "zero".
Proof. repeat split; vm_compute; auto. Qed.

(** X15: the match [search] returns for a property has no match of the
    property's pattern before it; and when a recognized key stands in the
    content with no match of the pattern before it, the value extracted is
    the one of that occurrence, whatever the later lines hold, other
    recognized keys of the property among them, and whatever the place of
    the key among the alternatives of the pattern. *)
Theorem earliest_occurrence_wins (p : prop) :
  (forall content m,
      search (prop_re p) content = Some m ->
      no_match_before (prop_re p) content (m_start m)) /\
  (forall a k v later,
      In k (prop_keys p) -> one_line v = true -> at_eol later = true ->
      no_match_before (prop_re p) (a ++ k ++ v) (String.length a) ->
      get_prop (a ++ k ++ v ++ later) (prop_re p) (prop_name p) = Ok v).
Proof.
  split.
  - intros content m H. rewrite prop_re_compile in *.
    destruct (search_sound (prop_keys_nonempty p) _ H)
      as (pre & t & rest & k & _ & _ & _ & _ & _ & _ & _ & _ & Hmin & _).
    apply no_match_before_keys; [apply prop_keys_nonempty | exact Hmin].
  - apply get_prop_leftmost.
Qed.

Lemma earliest_occurrence_wins_witness :
  In "ro.system.device=" (prop_keys Codename) /\
  one_line "first" = true /\
  at_eol (nl ++ "ro.product.device=second" ++ nl) = true /\
  no_match_before (prop_re Codename)
    (("# begin build properties" ++ nl) ++ "ro.system.device=" ++ "first")
    (String.length ("# begin build properties" ++ nl)) /\
  get_prop two_codenames DEVICE_CODENAME_RE "codename" = Ok "first".
Proof.
  assert (In "ro.system.device=" (prop_keys Codename)) as H1
    by (simpl; auto).
  assert (one_line "first" = true) as H2 by reflexivity.
  assert (at_eol (nl ++ "ro.product.device=second" ++ nl) = true) as H3
    by reflexivity.
  assert (no_match_before (prop_re Codename)
            (("# begin build properties" ++ nl) ++
             "ro.system.device=" ++ "first")
            (String.length ("# begin build properties" ++ nl))) as H4
    by (apply no_match_beforeb_spec; vm_compute; reflexivity).
  repeat (split; [assumption|]).
  exact (proj2 (earliest_occurrence_wins Codename)
           ("# begin build properties" ++ nl) "ro.system.device=" "first"
           (nl ++ "ro.product.device=second" ++ nl) H1 H2 H3 H4).
Defined.

(** ** The fields of a reader *)


Lemma all_found_ok (filename content : string) :
  (forall p, found p content = true) ->
  exists r, parse_props filename content = Ok r.
Proof.
  intros H. pose proof (parse_props_spec filename content) as S.
  destruct (parse_props filename content) as [r|e]; [now exists r|].
  destruct S as (p & Hp & _). rewrite H in Hp. discriminate.
Qed.

Lemma field_captured (filename content : string) (r : BuildPropReader) :
  parse_props filename content = Ok r ->
  forall p, exists v,
    captured_at (prop_keys p) content v /\ field p r = from_capture p v.
Proof.
  intros H p. pose proof (parse_props_spec filename content) as S.
  rewrite H in S. destruct S as [F _]. destruct (F p) as (m & Hm & E).
  exists (group1 m). split; [|exact E].
  rewrite prop_re_compile in Hm.
  destruct (search_sound (prop_keys_nonempty p) _ Hm)
    as (pre & t & rest & k & E1 & L & _ & Hin & M & Lt & Hv & Hr & Hmin & MH).
  exists pre, t, rest, k. rewrite L. repeat split; try assumption.
  apply no_match_before_keys; [apply prop_keys_nonempty | exact Hmin].
Qed.





(** ** A key with an empty value *)





(** ** The A/B flag *)

Lemma startswith_split (s p : string) :
  startswith s p = true -> exists rest, s = p ++ rest.
Proof.
  revert s; induction p as [|c p IH]; intros s; simpl.
  - now exists s.
  - destruct s as [|d s]; [discriminate|].
    intros H. apply andb_true_iff in H as [H1 H2].
    apply Ascii.eqb_eq in H1 as ->.
    destruct (IH _ H2) as [rest ->]. now exists rest.
Qed.

Lemma contains_split (s sub : string) :
  contains s sub = true -> exists pre rest, s = pre ++ sub ++ rest.
Proof.
  induction s as [|c s IH]; simpl; intros H;
    apply orb_true_iff in H as [H|H].
  - destruct (startswith_split _ _ H) as [rest E]. now exists "", rest.
  - discriminate.
  - destruct (startswith_split _ _ H) as [rest E]. now exists "", rest.
  - destruct (IH H) as (pre & rest & ->). now exists (String c pre), rest.
Qed.

(** Where the marker stands in the content, the flag is set. *)
Lemma marker_sets_flag (filename content : string) (r : BuildPropReader) :
  parse_props filename content = Ok r ->
  contains content "ro.build.ab_update=true" = true ->
  device_is_ab r = true.
Proof.
  intros H C. pose proof (parse_props_spec filename content) as S.
  rewrite H in S. destruct S as (_ & -> & _).
  destruct (contains_split _ _ C) as (pre & rest & ->).
  destruct (@search_some IS_AB_KEYS ltac:(discriminate) pre
              ("ro.build.ab_update=true" ++ rest) "ro.build.ab_update=true")
    as [m Hm].
  - simpl; auto.
  - now apply key_match_self.
  - unfold DEVICE_IS_AB_RE. now rewrite Hm.
Qed.

(** The flag is never why construction fails: with the six properties
    found, a reader is returned, the marker there or not. *)
Lemma flag_never_raises (filename content : string) :
  (forall p, found p content = true) ->
  exists r, parse_props filename content = Ok r /\
            device_is_ab r = truthy (search DEVICE_IS_AB_RE content).
Proof.
  intros H. destruct (all_found_ok filename content H) as [r Hr].
  exists r. split; [exact Hr|].
  pose proof (parse_props_spec filename content) as S.
  rewrite Hr in S. now destruct S as (_ & -> & _).
Qed.

(** What the code tests: the flag is set exactly when the pattern, its two
    dots standing for any character, matches at some offset. *)
Lemma flag_iff_pattern (filename content : string) (r : BuildPropReader) :
  parse_props filename content = Ok r ->
  (device_is_ab r = true <->
   exists i, key_match "ro.build.ab_update=true" (drop i content) = true).
Proof.
  intros H. pose proof (parse_props_spec filename content) as S.
  rewrite H in S. destruct S as (_ & -> & _).
  unfold DEVICE_IS_AB_RE. rewrite search_compile by discriminate.
  destruct (find_key IS_AB_KEYS content) as [[i k]|] eqn:F; simpl; split.
  - intros _. exists i. pose proof (find_key_first _ _ F) as FK.
    destruct (first_key_In _ _ FK) as [[<-|[]] M]. exact M.
  - reflexivity.
  - discriminate.
  - intros [i M]. pose proof (find_key_none _ _ F i) as N.
    simpl in N. rewrite M in N. discriminate.
Qed.

(** C4: the marker [ro.build.ab_update=true] occurs nowhere in this content,
    and the reader built from it has [device_is_ab] true: the dots of the
    pattern are not escaped, and [ro_build_ab_update=true] matches it. *)
Theorem is_ab_without_marker :
  contains sample_other_marker "ro.build.ab_update=true" = false /\
  search DEVICE_IS_AB_RE sample_other_marker =
  Some (mkMatch 161 184 (Some "")) /\
  parse_props "/build.prop" sample_other_marker =
  Ok (mkReader "/build.prop" sample_other_marker "walleye" "google"
        "msm8998" "google" "Pixel 2" "arm64" true true).
Proof. repeat split; vm_compute; reflexivity. Qed.

(** * Further properties of the reader *)

(** ** Errors of the constructor *)

(** X1: the error of a failed construction names a property exactly when
    the pattern of that property matches nowhere and the patterns of all
    the properties read before it, in the order codename, manufacturer,
    platform, brand, model, arch, do match: of several missing properties
    the first one is reported. *)
Theorem error_names_first_missing (filename content : string) (p : prop) :
  parse_props filename content = Raise (missing_error p) <->
  found p content = false /\
  (forall q, prop_index q < prop_index p -> found q content = true).
Proof.
  split.
  - intros H. pose proof (parse_props_spec filename content) as S.
    rewrite H in S. destruct S as (p' & Hp & E & Hq).
    apply missing_error_inj in E. subst p'. auto.
  - intros [Hp Hq]. now apply first_missing_raises.
Qed.

Lemma error_names_first_missing_witness :
  found Brand sample_two_missing = false /\
  found Model sample_two_missing = false /\
  parse_props "/build.prop" sample_two_missing =
  Raise (AssertionError "Device brand could not be found in build.prop").
Proof.
  assert (found Brand sample_two_missing = false) as H1
    by (vm_compute; reflexivity).
  assert (forall q, prop_index q < prop_index Brand ->
                    found q sample_two_missing = true) as H2
    by (intros q Hq; destruct q; simpl in Hq; try lia;
        vm_compute; reflexivity).
  split; [exact H1|]. split; [vm_compute; reflexivity|].
  exact (proj2 (error_names_first_missing "/build.prop" sample_two_missing
                  Brand) (conj H1 H2)).
Defined.

(** X2: a constructor that fails fails with the error of
    [Path.absolute], or with the error of [read_text], each passed on as it
    is and before anything is parsed, or, the read having returned a
    content, with the error of a property whose pattern matches nowhere in
    that content. *)
Theorem init_errors (env : Env) (file : string) :
  (forall e,
      __init__ env file = Raise e ->
      absolute env file = Raise e \/
      (exists path,
          absolute env file = Ok path /\ read_text env path = Raise e) \/
      (exists path content p,
          absolute env file = Ok path /\ read_text env path = Ok content /\
          found p content = false /\ e = missing_error p)) /\
  (forall e, absolute env file = Raise e -> __init__ env file = Raise e) /\
  (forall path e,
      absolute env file = Ok path -> read_text env path = Raise e ->
      __init__ env file = Raise e).
Proof.
  unfold __init__. repeat split.
  - intros e. destruct (absolute env file) as [path|e0]; cbn [bind].
    + destruct (read_text env path) as [content|e1] eqn:R; cbn [bind].
      * intros H. right. right. exists path, content.
        pose proof (parse_props_spec path content) as S.
        rewrite H in S. destruct S as (p & Hp & E & _).
        exists p. auto.
      * intros [= ->]. right. left. now exists path.
    + intros [= ->]. now left.
  - now intros e ->.
  - intros path e -> R. cbn [bind]. now rewrite R.
Qed.

Lemma init_errors_witness :
  absolute no_cwd_env "build.prop" = Raise (OSError ".") /\
  __init__ no_cwd_env "build.prop" = Raise (OSError ".") /\
  absolute binary_env "build.prop" = Ok "/build.prop" /\
  read_text binary_env "/build.prop" =
  Raise (UnicodeDecodeError "/build.prop") /\
  __init__ binary_env "build.prop" =
  Raise (UnicodeDecodeError "/build.prop").
Proof.
  assert (absolute no_cwd_env "build.prop" = Raise (OSError ".")) as H1
    by reflexivity.
  assert (absolute binary_env "build.prop" = Ok "/build.prop") as H2
    by reflexivity.
  assert (read_text binary_env "/build.prop" =
          Raise (UnicodeDecodeError "/build.prop")) as H3 by reflexivity.
  split; [exact H1|]. split.
  - exact (proj1 (proj2 (init_errors no_cwd_env "build.prop")) _ H1).
  - split; [exact H2|]. split; [exact H3|].
    exact (proj2 (proj2 (init_errors binary_env "build.prop")) _ _ H2 H3).
Defined.

(** ** What a reader holds *)

(** X4: the manufacturer of a reader holds no capital letter, of ASCII or
    of Latin-1, and putting it in lower case again leaves it as it is. *)
Theorem manufacturer_is_lower_case
    (filename content : string) (r : BuildPropReader) :
  parse_props filename content = Ok r ->
  has_upper (manufacturer r) = false /\
  lower (manufacturer r) = manufacturer r.
Proof.
  intros H. pose proof (parse_props_spec filename content) as S.
  rewrite H in S. destruct S as [F _].
  destruct (F Manufacturer) as (m & _ & E). cbn [field from_capture] in E.
  rewrite E. split; [apply has_upper_lower | apply lower_idempotent].
Qed.

Lemma manufacturer_is_lower_case_witness :
  parse_props "/build.prop" sample_latin1 =
  Ok (mkReader "/build.prop" sample_latin1 "walleye" societe_lower
        "msm8998" "google" "Pixel 2" "arm64" false true) /\
  has_upper societe = true /\
  has_upper societe_lower = false /\ lower societe_lower = societe_lower.
Proof.
  assert (parse_props "/build.prop" sample_latin1 =
          Ok (mkReader "/build.prop" sample_latin1 "walleye" societe_lower
                "msm8998" "google" "Pixel 2" "arm64" false true)) as H
    by (vm_compute; reflexivity).
  split; [exact H|]. split; [reflexivity|].
  exact (manufacturer_is_lower_case "/build.prop" sample_latin1 H).
Defined.

Lemma lower_char_newline (c : ascii) :
  Ascii.eqb (lower_char c) newline = Ascii.eqb c newline.
Proof.
  unfold lower_char. destruct (is_upper c) eqn:U; [|reflexivity].
  apply is_upper_spec in U.
  assert (c <> newline) as N1
    by (intros ->; change (nat_of_ascii newline) with 10 in U; lia).
  assert (ascii_of_nat (nat_of_ascii c + 32) <> newline) as N2.
  { intros E. apply (f_equal nat_of_ascii) in E.
    rewrite nat_ascii_embedding in E by lia.
    change (nat_of_ascii newline) with 10 in E. lia. }
  apply Ascii.eqb_neq in N1, N2. now rewrite N1, N2.
Qed.

Lemma one_line_lower (s : string) : one_line (lower s) = one_line s.
Proof.
  induction s as [|c s IH]; [reflexivity|]. simpl.
  now rewrite lower_char_newline, IH.
Qed.

(** X5: no field of a reader holds a line feed: each of codename,
    manufacturer, platform, brand, model and arch is a single line. *)
Theorem fields_are_single_lines
    (filename content : string) (r : BuildPropReader) :
  parse_props filename content = Ok r ->
  forall p, one_line (field p r) = true.
Proof.
  intros H p. destruct (field_captured filename content H p)
    as (v & (pre & t & rest & k & _ & _ & _ & _ & _ & Hv & _) & ->).
  destruct p; cbn [from_capture]; try exact Hv.
  - now rewrite one_line_lower.
  - pose proof (parse_arch_values v) as V. simpl in V.
    destruct V as [<-|[<-|[<-|[<-|[<-|[]]]]]]; reflexivity.
Qed.

Lemma fields_are_single_lines_witness :
  parse_props "/build.prop" sample =
  Ok (mkReader "/build.prop" sample "walleye" "google" "msm8998" "google"
        "Pixel 2" "arm64" true true) /\
  one_line "Pixel 2" = true.
Proof.
  assert (parse_props "/build.prop" sample =
          Ok (mkReader "/build.prop" sample "walleye" "google" "msm8998"
                "google" "Pixel 2" "arm64" true true)) as H
    by (vm_compute; reflexivity).
  split; [exact H|].
  exact (fields_are_single_lines "/build.prop" sample H Model).
Defined.

(** ** More on [parse_arch] *)

Lemma startswith_app (s t p : string) :
  startswith s p = true -> startswith (s ++ t) p = true.
Proof.
  revert s; induction p as [|c p IH]; intros s; simpl; [reflexivity|].
  destruct s as [|d s]; [discriminate|]. simpl.
  intros H. apply andb_true_iff in H as [H1 H2].
  now rewrite H1, (IH _ H2).
Qed.

(** Two prefixes of one string agree as far as both go. *)
Lemma startswith_compat (s p q : string) :
  startswith s p = true -> startswith s q = true -> compat p q = true.
Proof.
  revert s q; induction p as [|a p IH]; intros s q; [reflexivity|].
  destruct q as [|b q]; [reflexivity|].
  destruct s as [|d s]; simpl; [discriminate|].
  intros H1 H2. apply andb_true_iff in H1 as [A1 H1].
  apply andb_true_iff in H2 as [A2 H2].
  apply Ascii.eqb_eq in A1, A2. subst.
  now rewrite Ascii.eqb_refl, (IH _ _ H1 H2).
Qed.

(** A string that starts with [p] does not start with a [q] that disagrees
    with [p]. *)
Lemma startswith_other (s p q : string) :
  startswith s p = true -> compat p q = false -> startswith s q = false.
Proof.
  intros H C. destruct (startswith s q) eqn:E; [|reflexivity].
  rewrite (startswith_compat _ _ _ H E) in C. discriminate.
Qed.

(** X6: once [parse_arch] recognizes a prefix, what follows does not
    matter: for a value that is not classified unknown, appending any text
    leaves the result as it is (so of a list of ABIs the first decides). *)
Theorem parse_arch_ignores_suffix (s t : string) :
  parse_arch s <> "unknown" -> parse_arch (s ++ t) = parse_arch s.
Proof.
  rewrite !parse_arch_order.
  destruct (startswith s "arm64") eqn:E1.
  { now rewrite (startswith_app _ t _ E1). }
  destruct (startswith s "armeabi") eqn:E2.
  { rewrite (startswith_other _ _ "arm64" (startswith_app _ t _ E2) eq_refl).
    now rewrite (startswith_app _ t _ E2). }
  destruct (startswith s "x86") eqn:E3.
  { rewrite (startswith_other _ _ "arm64" (startswith_app _ t _ E3) eq_refl).
    rewrite (startswith_other _ _ "armeabi" (startswith_app _ t _ E3) eq_refl).
    now rewrite (startswith_app _ t _ E3). }
  destruct (startswith s "mips") eqn:E4.
  { rewrite (startswith_other _ _ "arm64" (startswith_app _ t _ E4) eq_refl).
    rewrite (startswith_other _ _ "armeabi" (startswith_app _ t _ E4) eq_refl).
    rewrite (startswith_other _ _ "x86" (startswith_app _ t _ E4) eq_refl).
    now rewrite (startswith_app _ t _ E4). }
  intros H. now elim H.
Qed.

Lemma parse_arch_ignores_suffix_witness :
  parse_arch "arm64-v8a" <> "unknown" /\
  parse_arch ("arm64-v8a" ++ ",armeabi-v7a,armeabi") = parse_arch "arm64-v8a".
Proof.
  assert (parse_arch "arm64-v8a" <> "unknown") as H by discriminate.
  split; [exact H|].
  exact (parse_arch_ignores_suffix "arm64-v8a" ",armeabi-v7a,armeabi" H).
Defined.

(** X7: [parse_arch] is not a normal form of its own results: applied to
    its result it gives the same again except on "arm", which it classifies
    unknown. *)
Theorem parse_arch_twice (s : string) :
  parse_arch (parse_arch s) =
  if String.eqb (parse_arch s) "arm" then "unknown" else parse_arch s.
Proof.
  pose proof (parse_arch_values s) as V. simpl in V.
  destruct V as [<-|[<-|[<-|[<-|[<-|[]]]]]]; reflexivity.
Qed.

(** X8: [device_has_64bit_arch] is true exactly when the captured ABI
    starts with arm64; a captured ABI that starts with x86_64 gives the arch
    "x86" and [device_has_64bit_arch] false. *)
Theorem has_64bit_from_abi
    (filename content : string) (r : BuildPropReader) :
  parse_props filename content = Ok r ->
  exists v,
    captured_at ARCH_KEYS content v /\
    arch r = parse_arch v /\
    (device_has_64bit_arch r = true <-> startswith v "arm64" = true) /\
    (startswith v "x86_64" = true ->
     arch r = "x86" /\ device_has_64bit_arch r = false).
Proof.
  intros H. destruct (field_captured filename content H Arch)
    as (v & C & E). cbn [field from_capture prop_keys] in *.
  pose proof (parse_props_spec filename content) as S.
  rewrite H in S. destruct S as (_ & _ & B & _).
  exists v. split; [exact C|]. split; [exact E|].
  rewrite B, E, parse_arch_order. split.
  - destruct (startswith v "arm64"); [now split|].
    destruct (startswith v "armeabi"); [split; discriminate|].
    destruct (startswith v "x86"); [split; discriminate|].
    destruct (startswith v "mips"); split; discriminate.
  - intros X. pose proof (startswith_append v "x86" "_64" X) as X3.
    rewrite (startswith_other _ _ "arm64" X3 eq_refl).
    rewrite (startswith_other _ _ "armeabi" X3 eq_refl).
    rewrite X3. now split.
Qed.

Lemma has_64bit_from_abi_witness :
  parse_props "/build.prop" sample_x86_64 =
  Ok (mkReader "/build.prop" sample_x86_64 "generic_x86_64" "unknown"
        "goldfish" "Android" "AOSP on IA x86_64 Emulator" "x86"
        false false) /\
  exists v,
    captured_at ARCH_KEYS sample_x86_64 v /\
    "x86" = parse_arch v /\
    (false = true <-> startswith v "arm64" = true) /\
    (startswith v "x86_64" = true -> "x86" = "x86" /\ false = false).
Proof.
  assert (parse_props "/build.prop" sample_x86_64 =
          Ok (mkReader "/build.prop" sample_x86_64 "generic_x86_64"
                "unknown" "goldfish" "Android"
                "AOSP on IA x86_64 Emulator" "x86" false false)) as H
    by (vm_compute; reflexivity).
  split; [exact H|].
  exact (has_64bit_from_abi "/build.prop" sample_x86_64 H).
Defined.

(** ** The keys of one pattern *)

Lemma pclash_excl (k' k s : string) :
  pclash k' k = true -> key_match k s = true -> key_match k' s = false.
Proof.
  revert k s; induction k' as [|c k1 IH]; intros k s; [discriminate|].
  destruct k as [|d k2]; [discriminate|].
  destruct s as [|e s]; [discriminate|]. simpl.
  intros P M. apply andb_true_iff in M as [M1 M2].
  apply orb_true_iff in P as [P|P].
  - apply andb_true_iff in P as [P P3]. apply andb_true_iff in P as [P1 P2].
    apply negb_true_iff in P1, P2, P3. rewrite P2 in M1. rewrite P1.
    apply Ascii.eqb_eq in M1. subst e. now rewrite P3.
  - rewrite (IH _ _ P M2). apply andb_false_r.
Qed.

Lemma keys_excl_In (ks : list string) (k k' : string) :
  keys_excl ks = true -> In k ks -> In k' ks -> k <> k' ->
  pclash k' k = true.
Proof.
  induction ks as [|k0 ks IH]; [contradiction|]. simpl.
  intros H. apply andb_true_iff in H as [H1 H2].
  rewrite forallb_forall in H1.
  intros [<-|Hk] [<-|Hk'] N.
  - now elim N.
  - now destruct (proj1 (andb_true_iff _ _) (H1 _ Hk')).
  - now destruct (proj1 (andb_true_iff _ _) (H1 _ Hk)).
  - now apply IH.
Qed.

Lemma prop_keys_excl (p : prop) : keys_excl (prop_keys p) = true.
Proof. destruct p; vm_compute; reflexivity. Qed.

(** X9: the alternatives of a property's pattern exclude one another: at no
    place of any text do two different keys of one property match, so the
    order in which a pattern lists its keys has no effect. *)
Theorem keys_never_overlap (p : prop) (k k' s : string) :
  In k (prop_keys p) -> In k' (prop_keys p) ->
  key_match k s = true -> key_match k' s = true -> k = k'.
Proof.
  intros Hk Hk' M M'. destruct (string_dec k k') as [E|N]; [exact E|].
  pose proof (keys_excl_In _ (prop_keys_excl p) Hk Hk' N) as P.
  rewrite (pclash_excl _ _ _ P M) in M'. discriminate.
Qed.

Lemma keys_never_overlap_witness :
  In "ro.product.device=" (prop_keys Codename) /\
  key_match "ro.product.device=" "ro_product_device=walleye" = true /\
  (forall k', In k' (prop_keys Codename) ->
              key_match k' "ro_product_device=walleye" = true ->
              "ro.product.device=" = k').
Proof.
  assert (In "ro.product.device=" (prop_keys Codename)) as H1
    by (simpl; auto).
  assert (key_match "ro.product.device=" "ro_product_device=walleye" = true)
    as H2 by reflexivity.
  split; [exact H1|]. split; [exact H2|].
  intros k' Hk' M.
  exact (keys_never_overlap Codename "ro.product.device=" k'
           "ro_product_device=walleye" H1 Hk' H2 M).
Defined.

Lemma first_key_excl (ks : list string) (k s : string) :
  keys_excl ks = true -> In k ks -> key_match k s = true ->
  first_key ks s = Some k.
Proof.
  intros X. revert X. induction ks as [|k0 ks IH]; [contradiction|].
  intros X Hin M. simpl. destruct (key_match k0 s) eqn:E.
  - destruct (string_dec k k0) as [->|N]; [reflexivity|].
    assert (pclash k0 k = true) as P
      by (apply (keys_excl_In (k0 :: ks)); simpl; auto).
    rewrite (pclash_excl _ _ _ P M) in E. discriminate.
  - destruct Hin as [->|Hin]; [congruence|].
    apply IH; auto. simpl in X. now apply andb_true_iff in X as [_ ?].
Qed.

Lemma key_match_app (k t x : string) :
  key_match k t = true -> key_match k (t ++ x) = true.
Proof.
  revert t; induction k as [|c k IH]; intros t; [reflexivity|].
  destruct t as [|d t]; [discriminate|]. simpl.
  intros H. apply andb_true_iff in H as [H1 H2].
  now rewrite H1, (IH _ H2).
Qed.

(** X10: the dots of the keys are wild cards for [get_prop] too: a text
    that agrees with a key of the property everywhere but at the key's
    dots, where it may hold any character but a line feed, is taken as that
    key, and with no match of the pattern before it the value after it is
    what [get_prop] returns. *)
Theorem key_text_with_wildcards (p : prop) (a t v later k : string) :
  In k (prop_keys p) ->
  key_match k t = true -> String.length t = String.length k ->
  one_line v = true -> at_eol later = true ->
  no_match_before (prop_re p) (a ++ t ++ v) (String.length a) ->
  get_prop (a ++ t ++ v ++ later) (prop_re p) (prop_name p) = Ok v.
Proof.
  intros Hin M L Hv Hl Hmin. rewrite get_prop_found.
  rewrite prop_re_compile in *.
  apply no_match_before_keys in Hmin; [|apply prop_keys_nonempty].
  rewrite (@search_leftmost (prop_keys p) (prop_keys_nonempty p)
             a t v later k); auto.
  - apply first_key_excl; [apply prop_keys_excl | exact Hin|].
    now apply key_match_app.
  - replace (a ++ t ++ v ++ later) with ((a ++ t ++ v) ++ later)
      by now rewrite !append_assoc.
    apply no_key_before_line; auto.
    + apply prop_keys_ok.
    + rewrite length_append. lia.
Qed.

Lemma key_text_with_wildcards_witness :
  In "ro.product.device=" (prop_keys Codename) /\
  key_match "ro.product.device=" "ro_product_device=" = true /\
  no_match_before (prop_re Codename)
    (("# build properties" ++ nl) ++ "ro_product_device=" ++ "walleye")
    (String.length ("# build properties" ++ nl)) /\
  get_prop sample_underscores DEVICE_CODENAME_RE "codename" = Ok "walleye".
Proof.
  assert (In "ro.product.device=" (prop_keys Codename)) as H1
    by (simpl; auto).
  assert (key_match "ro.product.device=" "ro_product_device=" = true) as H2
    by reflexivity.
  assert (no_match_before (prop_re Codename)
            (("# build properties" ++ nl) ++ "ro_product_device=" ++ "walleye")
            (String.length ("# build properties" ++ nl)))
    as H3 by (apply no_match_beforeb_spec; vm_compute; reflexivity).
  split; [exact H1|]. split; [exact H2|]. split; [exact H3|].
  exact (key_text_with_wildcards Codename ("# build properties" ++ nl)
           "ro_product_device=" "walleye" (drop 44 sample_underscores) "ro.product.device=" H1 H2 eq_refl
           eq_refl eq_refl H3).
Defined.

(** ** Contents without a key *)

Lemma contains_cons (c : ascii) (s sub : string) :
  contains s sub = true -> contains (String c s) sub = true.
Proof. intros H. simpl. rewrite H. apply orb_true_r. Qed.

Lemma contains_drop (i : nat) (s sub : string) :
  contains (drop i s) sub = true -> contains s sub = true.
Proof.
  revert s; induction i as [|i IH]; intros s; [trivial|].
  destruct s as [|c s]; [trivial|]. simpl drop.
  intros H. apply contains_cons. now apply IH.
Qed.

Lemma contains_equals_cons (c : ascii) (s : string) :
  contains (String c s) "=" = Ascii.eqb "="%char c || contains s "=".
Proof. cbn [contains startswith]. now rewrite andb_true_r. Qed.

(** A key that holds an equals sign matches only where one stands. *)
Lemma key_match_equals (k s : string) :
  contains k "=" = true -> key_match k s = true -> contains s "=" = true.
Proof.
  revert s; induction k as [|c k IH]; intros s; [discriminate|].
  destruct s as [|d s]; [discriminate|].
  rewrite !contains_equals_cons. cbn [key_match].
  intros C M. apply andb_true_iff in M as [M1 M2].
  apply orb_true_iff in C as [C|C].
  - apply Ascii.eqb_eq in C. subst c.
    change (Ascii.eqb "="%char "."%char) with false in M1.
    now rewrite M1.
  - rewrite (IH _ C M2). apply orb_true_r.
Qed.

Lemma prop_keys_equals (p : prop) (k : string) :
  In k (prop_keys p) -> contains k "=" = true.
Proof.
  assert (forallb (fun k => contains k "=") (prop_keys p) = true) as F
    by (destruct p; vm_compute; reflexivity).
  rewrite forallb_forall in F. apply F.
Qed.

(** X11: a content without an equals sign, the empty file among them, holds
    no property at all: no pattern of the six matches, and construction
    raises the error of the codename, the first property read. *)
Theorem no_equals_sign_no_property (filename content : string) :
  contains content "=" = false ->
  (forall p, found p content = false) /\
  parse_props filename content = Raise (missing_error Codename).
Proof.
  intros C.
  assert (forall p, found p content = false) as F.
  { intros p. unfold found. rewrite prop_re_compile.
    rewrite search_compile by apply prop_keys_nonempty.
    destruct (find_key (prop_keys p) content) as [[i k]|] eqn:E;
      [|reflexivity].
    pose proof (find_key_first _ _ E) as FK.
    destruct (first_key_In _ _ FK) as [Hin M].
    pose proof (key_match_equals _ _ (prop_keys_equals p k Hin) M) as Q.
    apply contains_drop in Q. congruence. }
  split; [exact F|].
  apply first_missing_raises; [apply F|].
  intros q Hq. destruct q; simpl in Hq; lia.
Qed.

Lemma no_equals_sign_no_property_witness :
  contains sample_comments "=" = false /\
  contains "" "=" = false /\
  parse_props "/build.prop" sample_comments =
  Raise (AssertionError "Device codename could not be found in build.prop") /\
  parse_props "/build.prop" "" =
  Raise (AssertionError "Device codename could not be found in build.prop").
Proof.
  assert (contains sample_comments "=" = false) as H1 by reflexivity.
  assert (contains "" "=" = false) as H2 by reflexivity.
  split; [exact H1|]. split; [exact H2|]. split.
  - exact (proj2 (no_equals_sign_no_property "/build.prop" sample_comments
                    H1)).
  - exact (proj2 (no_equals_sign_no_property "/build.prop" "" H2)).
Defined.

(** ** Lines added at the end *)

Lemma at_eol_append (rest later : string) :
  at_eol rest = true -> at_eol later = true -> at_eol (rest ++ later) = true.
Proof. now destruct rest. Qed.

(** A match is not lost, and captures the same, when lines are added. *)
Lemma search_append (ks : list string) (content later : string) (m : Match) :
  ks <> [] -> keys_ok ks = true -> at_eol later = true ->
  search (compile ks) content = Some m ->
  exists m', search (compile ks) (content ++ later) = Some m' /\
             group1 m' = group1 m.
Proof.
  intros Hne Hok Hl H.
  destruct (search_sound Hne _ H)
    as (pre & t & rest & k & E & L & FK & _ & _ & Lt & Hv & Hr & Hmin & _).
  assert (content ++ later = pre ++ t ++ group1 m ++ rest ++ later) as E2
    by (rewrite E at 1; now rewrite !append_assoc).
  eexists. split.
  - rewrite E2. apply (search_leftmost Hne).
    + replace (t ++ group1 m ++ rest ++ later)
        with ((t ++ group1 m ++ rest) ++ later)
        by now rewrite !append_assoc.
      rewrite first_key_line by assumption. exact FK.
    + exact Lt.
    + exact Hv.
    + now apply at_eol_append.
    + rewrite <- E2. apply no_key_before_line; auto.
      * rewrite E, length_append. lia.
      * now rewrite L.
  - reflexivity.
Qed.

(** X12: lines added after the end of a content that builds a reader change
    none of its six properties nor [device_has_64bit_arch]; construction
    still succeeds, and [device_is_ab] can only turn from false to true. *)
Theorem added_lines_keep_fields
    (filename content later : string) (r : BuildPropReader) :
  parse_props filename content = Ok r ->
  at_eol later = true ->
  exists r',
    parse_props filename (content ++ later) = Ok r' /\
    (forall p, field p r' = field p r) /\
    device_has_64bit_arch r' = device_has_64bit_arch r /\
    (device_is_ab r = true -> device_is_ab r' = true).
Proof.
  intros H Hl.
  pose proof (parse_props_spec filename content) as S.
  rewrite H in S. destruct S as (F & A & B & _).
  assert (forall p, exists m',
             search (prop_re p) (content ++ later) = Some m' /\
             from_capture p (group1 m') = field p r) as F'.
  { intros p. destruct (F p) as (m & Hm & E).
    rewrite prop_re_compile in *.
    destruct (@search_append (prop_keys p) content later m
                (prop_keys_nonempty p) (prop_keys_ok p) Hl Hm)
      as (m' & Hm' & G).
    exists m'. split; [exact Hm'|]. now rewrite G. }
  destruct (all_found_ok filename (content ++ later)) as [r' Hr'].
  { intros p. unfold found. now destruct (F' p) as (m' & -> & _). }
  exists r'. pose proof (parse_props_spec filename (content ++ later)) as S'.
  rewrite Hr' in S'. destruct S' as (G & A' & B' & _).
  assert (forall p, field p r' = field p r) as Eq.
  { intros p. destruct (G p) as (m1 & Hm1 & ->).
    destruct (F' p) as (m2 & Hm2 & <-). congruence. }
  split; [exact Hr'|]. split; [exact Eq|]. split.
  - rewrite B, B'. now rewrite (Eq Arch : arch r' = arch r).
  - rewrite A, A'. unfold DEVICE_IS_AB_RE.
    destruct (search (compile IS_AB_KEYS) content) as [m|] eqn:Em;
      [|discriminate].
    intros _.
    destruct (@search_append IS_AB_KEYS content later m ltac:(discriminate)
                eq_refl Hl Em) as (m' & -> & _).
    reflexivity.
Qed.

Lemma added_lines_keep_fields_witness :
  parse_props "/build.prop" sample_mips =
  Ok (mkReader "/build.prop" sample_mips "ci20" "imagination" "xb4780"
        "Ingenic" "CI20" "mips" false false) /\
  exists r',
    parse_props "/build.prop"
      (sample_mips ++ nl ++ "ro.product.cpu.abi=arm64-v8a" ++ nl ++
       "ro.build.ab_update=true") = Ok r' /\
    (forall p, field p r' =
               field p (mkReader "/build.prop" sample_mips "ci20"
                          "imagination" "xb4780" "Ingenic" "CI20" "mips"
                          false false)) /\
    device_has_64bit_arch r' = false /\
    (false = true -> device_is_ab r' = true).
Proof.
  assert (parse_props "/build.prop" sample_mips =
          Ok (mkReader "/build.prop" sample_mips "ci20" "imagination"
                "xb4780" "Ingenic" "CI20" "mips" false false)) as H
    by (vm_compute; reflexivity).
  split; [exact H|].
  exact (@added_lines_keep_fields "/build.prop" sample_mips
           (nl ++ "ro.product.cpu.abi=arm64-v8a" ++ nl ++
            "ro.build.ab_update=true") _ H eq_refl).
Defined.

(** ** The A/B flag, as the code tests it *)

(** X13: [device_is_ab] is true exactly when the marker pattern, its two
    dots standing for any character but a line feed, matches at some offset
    of the content; so the marker sets the flag wherever it stands, inside a
    comment or before more text on its line as well. *)
Theorem ab_flag_as_tested
    (filename content : string) (r : BuildPropReader) :
  parse_props filename content = Ok r ->
  (device_is_ab r = true <->
   exists i, key_match "ro.build.ab_update=true" (drop i content) = true) /\
  (forall pre rest,
      content = pre ++ "ro.build.ab_update=true" ++ rest ->
      device_is_ab r = true).
Proof.
  intros H. pose proof (flag_iff_pattern filename content H) as I.
  split; [exact I|].
  intros pre rest ->. apply I. exists (String.length pre).
  rewrite drop_append. now apply key_match_self.
Qed.

Lemma ab_flag_as_tested_witness :
  parse_props "/build.prop" sample_ab_comment =
  Ok (mkReader "/build.prop" sample_ab_comment "walleye" "google" "msm8998"
        "google" "Pixel 2" "arm64" true true) /\
  (true = true <->
   exists i,
     key_match "ro.build.ab_update=true" (drop i sample_ab_comment) = true).
Proof.
  assert (parse_props "/build.prop" sample_ab_comment =
          Ok (mkReader "/build.prop" sample_ab_comment "walleye" "google"
                "msm8998" "google" "Pixel 2" "arm64" true true)) as H
    by (vm_compute; reflexivity).
  split; [exact H|].
  exact (proj1 (ab_flag_as_tested "/build.prop" sample_ab_comment H)).
Defined.

(** ** Lines put before the content *)

Section Header.

Variable ks : list string.
Hypothesis ks_nonempty : ks <> [].
Hypothesis ks_ok : keys_ok ks = true.

Variables header content : string.

(** No key of [ks] matches in the header lines. *)
Hypothesis header_free : find_key ks (header ++ nl) = None.

Lemma first_key_header (i : nat) :
  i <= String.length header ->
  first_key ks (drop i ((header ++ nl) ++ content)) = None.
Proof.
  intros Hi. rewrite append_assoc, drop_append_le by exact Hi.
  rewrite first_key_line by (assumption || reflexivity).
  rewrite <- (first_key_line ks (drop i header) nl ks_ok eq_refl).
  rewrite <- drop_append_le by exact Hi.
  now apply find_key_none.
Qed.

Lemma drop_header (j : nat) :
  drop (String.length (header ++ nl) + j) ((header ++ nl) ++ content) =
  drop j content.
Proof. now rewrite <- drop_drop, drop_append. Qed.

Lemma find_key_header :
  find_key ks ((header ++ nl) ++ content) =
  match find_key ks content with
  | Some (j, k) => Some (String.length (header ++ nl) + j, k)
  | None => None
  end.
Proof.
  assert (String.length (header ++ nl) = S (String.length header)) as Ln
    by (rewrite length_append; simpl; lia).
  destruct (find_key ks content) as [[j k]|] eqn:F.
  - apply find_key_unique.
    + rewrite drop_header. exact (find_key_first _ _ F).
    + assert (j <= String.length content) as Hj
        by exact (find_key_bound _ _ F).
      rewrite (length_append (header ++ nl) content). lia.
    + intros i Hi. destruct (le_lt_dec i (String.length header)) as [L|L].
      * now apply first_key_header.
      * replace i with (String.length (header ++ nl)
                        + (i - String.length (header ++ nl))) by lia.
        rewrite drop_header. apply (find_key_least _ _ F). lia.
  - destruct (find_key ks ((header ++ nl) ++ content)) as [[i k]|] eqn:G;
      [|reflexivity].
    pose proof (find_key_first _ _ G) as FK.
    destruct (le_lt_dec i (String.length header)) as [L|L].
    + rewrite first_key_header in FK by exact L. discriminate.
    + replace i with (String.length (header ++ nl)
                      + (i - String.length (header ++ nl))) in FK by lia.
      rewrite drop_header, (find_key_none _ _ F) in FK. discriminate.
Qed.

(** The header moves the match and changes nothing else. *)
Lemma search_header :
  match search (compile ks) content with
  | Some m =>
      exists m', search (compile ks) ((header ++ nl) ++ content) = Some m' /\
                 group1 m' = group1 m
  | None => search (compile ks) ((header ++ nl) ++ content) = None
  end.
Proof.
  rewrite !search_compile by assumption. rewrite find_key_header.
  destruct (find_key ks content) as [[j k]|]; [|reflexivity].
  eexists. split; [reflexivity|]. unfold group1; cbn [m_group1].
  now rewrite <- Nat.add_assoc, drop_header.
Qed.

End Header.

Lemma not_found_find_key (ks : list string) (s : string) :
  ks <> [] -> truthy (search (compile ks) s) = false ->
  find_key ks s = None.
Proof.
  intros Hne. rewrite search_compile by assumption.
  now destruct (find_key ks s) as [[i k]|].
Qed.

(** X14: lines put before a content that builds a reader, when no pattern
    of the module matches in them (comments, blank lines, other keys),
    change nothing: construction still succeeds, with the same six
    properties and the same two flags. *)
Theorem header_lines_keep_fields
    (filename header content : string) (r : BuildPropReader) :
  parse_props filename content = Ok r ->
  (forall p, found p (header ++ nl) = false) ->
  truthy (search DEVICE_IS_AB_RE (header ++ nl)) = false ->
  exists r',
    parse_props filename ((header ++ nl) ++ content) = Ok r' /\
    (forall p, field p r' = field p r) /\
    device_has_64bit_arch r' = device_has_64bit_arch r /\
    device_is_ab r' = device_is_ab r.
Proof.
  intros H Hfree Hab.
  pose proof (parse_props_spec filename content) as S.
  rewrite H in S. destruct S as (F & A & B & _).
  assert (forall p, exists m',
             search (prop_re p) ((header ++ nl) ++ content) = Some m' /\
             from_capture p (group1 m') = field p r) as F'.
  { intros p. destruct (F p) as (m & Hm & E).
    specialize (Hfree p). unfold found in Hfree.
    rewrite prop_re_compile in *.
    pose proof (@search_header (prop_keys p) (prop_keys_nonempty p)
                  (prop_keys_ok p) header content
                  (not_found_find_key _ (prop_keys_nonempty p) Hfree)) as SH.
    rewrite Hm in SH. destruct SH as (m' & Hm' & G).
    exists m'. split; [exact Hm'|]. now rewrite G. }
  destruct (all_found_ok filename ((header ++ nl) ++ content)) as [r' Hr'].
  { intros p. unfold found. now destruct (F' p) as (m' & -> & _). }
  exists r'.
  pose proof (parse_props_spec filename ((header ++ nl) ++ content)) as S'.
  rewrite Hr' in S'. destruct S' as (G & A' & B' & _).
  assert (forall p, field p r' = field p r) as Eq.
  { intros p. destruct (G p) as (m1 & Hm1 & ->).
    destruct (F' p) as (m2 & Hm2 & <-). congruence. }
  split; [exact Hr'|]. split; [exact Eq|]. split.
  - rewrite B, B'. now rewrite (Eq Arch : arch r' = arch r).
  - rewrite A, A'. unfold DEVICE_IS_AB_RE in *.
    assert (IS_AB_KEYS <> []) as Hne by discriminate.
    pose proof (@search_header IS_AB_KEYS Hne eq_refl header content
                  (not_found_find_key _ Hne Hab)) as SH.
    destruct (search (compile IS_AB_KEYS) content) as [m|].
    + now destruct SH as (m' & -> & _).
    + now rewrite SH.
Qed.

Lemma header_lines_keep_fields_witness :
  parse_props "/build.prop" sample =
  Ok (mkReader "/build.prop" sample "walleye" "google" "msm8998" "google"
        "Pixel 2" "arm64" true true) /\
  (forall p, found p ("# begin build properties" ++ nl) = false) /\
  truthy (search DEVICE_IS_AB_RE ("# begin build properties" ++ nl)) = false /\
  exists r',
    parse_props "/build.prop"
      (("# begin build properties" ++ nl) ++ sample) = Ok r' /\
    (forall p, field p r' =
               field p (mkReader "/build.prop" sample "walleye" "google"
                          "msm8998" "google" "Pixel 2" "arm64" true true)) /\
    device_has_64bit_arch r' = true /\
    device_is_ab r' = true.
Proof.
  assert (parse_props "/build.prop" sample =
          Ok (mkReader "/build.prop" sample "walleye" "google" "msm8998"
                "google" "Pixel 2" "arm64" true true)) as H
    by (vm_compute; reflexivity).
  assert (forall p, found p ("# begin build properties" ++ nl) = false) as H2
    by (intros p; destruct p; vm_compute; reflexivity).
  assert (truthy (search DEVICE_IS_AB_RE ("# begin build properties" ++ nl))
          = false) as H3 by (vm_compute; reflexivity).
  split; [exact H|]. split; [exact H2|]. split; [exact H3|].
  exact (@header_lines_keep_fields "/build.prop" "# begin build properties"
           sample _ H H2 H3).
Defined.
